(** * ci-deploy: the artifact resolution engine of [bin/ci-deploy.py]

    A shallow embedding of the script: the content-identity walk over the
    commit ancestry, the persisted cache of workflow runs and its paginated
    sync, the run selection policy, the artifact lookup and [main], which
    sequences them.  Python values are modelled as follows.

    - A git tree is a finite map from a path to the hexsha of the object at
      that path; [tree[path]] raises [KeyError] outside its domain.
    - A commit object is a finite tree of commits: the ancestry DAG unfolded
      from the commit, a commit reached through two parents appearing twice.
    - A dict keeps insertion order, so the run store is an association list
      that [dict_set] updates in place or extends at its end.
    - Effects are threaded through a [world]: the files of the local disk and
      the chronological trace of prints, HTTP requests and subprocess calls.
      The outside (HTTP server, remote shell) answers as a function of the
      trace so far. *)

From stdpp Require Import base option list gmap strings pretty.

#[local] Set Warnings "-clear-no-such-hyp".

Open Scope string_scope.
Open Scope list_scope.

(** ** Source control collaborator *)

#[warnings="-register-all"] Inductive commit : Type :=
  Commit { hexsha : string; tree : gmap string string; parents : list commit }.

(** [ASSET_FILES], lines 14-20. *)
Definition ASSET_FILES : list string :=
  [ ".github/workflows/assets.yml"; "public"; "ui"; "package.json"; "yarn.lock" ].

(** [ASSET_BUILDS_URL], line 22. *)
Definition ASSET_BUILDS_URL : string :=
  "https://api.github.com/repos/ornicar/lila/actions/workflows/assets.yml/runs".

(** [hash_files], lines 25-26: the tuple of hexshas, one per path and in the
    order of [files]; [None] stands for the [KeyError] that [tree[path]]
    raises at the first path the tree lacks. *)
Definition hash_files (t : gmap string string) (files : list string)
  : option (list string) :=
  mapM (λ path, t !! path) files.

(** [find_commits], lines 29-39: the generator, as the list of the hexshas
    it yields, in order. *)
Fixpoint find_commits (c : commit) (files wanted_hash : list string)
  : list string :=
  match c with
  | Commit sha t ps =>
      match hash_files t files with
      | Some h =>
          if bool_decide (h ≠ wanted_hash) then []
          else sha :: flat_map (λ parent, find_commits parent files wanted_hash) ps
      | None => []
      end
  end.

(** The same walk, recording every commit [find_commits] is called on. *)
Fixpoint visited_commits (c : commit) (files wanted_hash : list string)
  : list string :=
  match c with
  | Commit sha t ps =>
      sha ::
      match hash_files t files with
      | Some h =>
          if bool_decide (h ≠ wanted_hash) then []
          else flat_map (λ parent, visited_commits parent files wanted_hash) ps
      | None => []
      end
  end.

(** ** CI provider collaborator: runs, artifacts, responses *)

(** A workflow run as the listing endpoint returns it: [run["id"]],
    [run["head_commit"]["id"]], [run["status"]], [run["conclusion"]] (JSON
    null is [None]), [run["html_url"]] and [run["artifacts_url"]]. *)
Record run : Type := Run {
  run_id : Z;
  head_commit_id : string;
  status : string;
  conclusion : option string;
  html_url : string;
  artifacts_url : string;
}.

Record artifact : Type := Artifact {
  artifact_name : string;
  artifact_expired : bool;
  archive_download_url : string;
}.

(** The decoded JSON object of a response: the two keys the script reads. *)
Record json_body : Type := JsonBody {
  json_workflow_runs : option (list run);
  json_artifacts : option (list artifact);
}.

(** A [requests] response; [json = None] when the body does not decode and
    [links_next] is [res.links["next"]["url"]] when the key is there. *)
Record response : Type := Response {
  status_code : Z;
  text : string;
  json : option json_body;
  links_next : option string;
}.

Inductive exn : Type :=
  | KeyError (key : string)
  | EOFError
  | UnpicklingError
  | JSONDecodeError
  | ConnectionError
  | RuntimeError (msg : string).

#[global] Instance exn_eq_dec : EqDecision exn.
Proof. solve_decision. Defined.

(** ** The run store: a dict in insertion order *)

(** [d.get(k)]: [None] when [k in d] is false. *)
Fixpoint dict_get (k : Z) (d : list (Z * run)) : option run :=
  match d with
  | [] => None
  | (k', v') :: d' => if bool_decide (k' = k) then Some v' else dict_get k d'
  end.

(** [d[k] = v]: the value of a present key is replaced where it stands, a
    new key goes to the end. *)
Fixpoint dict_set (k : Z) (v : run) (d : list (Z * run)) : list (Z * run) :=
  match d with
  | [] => [(k, v)]
  | (k', v') :: d' =>
      if bool_decide (k' = k) then (k, v) :: d' else (k', v') :: dict_set k v d'
  end.

Definition dict_values (d : list (Z * run)) : list run := d.*2.

(** ** Effects: the disk, the trace and the outside *)

Inductive event : Type :=
  | EPrint (line : string)
  | EGet (url : string)
  | ESleep (seconds : Z)
  | ECall (argv : list string).

(** What [pickle.load] finds at a position of the store file: a pickled
    dict, or bytes on which it raises [e]. Reading past the last chunk
    raises [EOFError]. *)
Inductive chunk : Type :=
  | Pickled (d : list (Z * run))
  | Corrupt (e : exn).

Record world : Type := World {
  fs : gmap string (list chunk);
  trace : list event;
}.

(** The three ways a call ends: it returns, it raises, or it never ends
    (the loop outlives every bound on its iterations). *)
Inductive outcome (A : Type) : Type :=
  | Ret (a : A)
  | Raise (e : exn)
  | Hang.
Arguments Ret {A} a.
Arguments Raise {A} e.
Arguments Hang {A}.

Definition print (line : string) (w : world) : world :=
  World (fs w) (trace w ++ [EPrint line]).

(** Calls in sequence: the first that raises or hangs ends the caller. *)
Definition action (A : Type) : Type := world → outcome A * world.

#[global] Instance action_ret : MRet action := λ A a w, (Ret a, w).
#[global] Instance action_bind : MBind action := λ A B k m w,
  match m w with
  | (Ret a, w) => k a w
  | (Raise e, w) => (Raise e, w)
  | (Hang, w) => (Hang, w)
  end.

Definition say (line : string) : action unit := λ w, (Ret (), print line w).

(** A file object opened with mode ["ab+"]. *)
Record file : Type := File { content : list chunk; pos : nat }.

(** [open(path, "ab+")]: the file is created empty when absent and the
    position starts at its end. *)
Definition open_ab (path : string) (w : world) : file * world :=
  let c := default [] (fs w !! path) in
  (File c (length c), World (<[path := c]> (fs w)) (trace w)).

Definition seek (offset : nat) (f : file) : file := File (content f) offset.

(** [f.truncate()]: cut at the current position. *)
Definition truncate (f : file) : file := File (take (pos f) (content f)) (pos f).

Definition pickle_load (f : file) : (exn + list (Z * run)) * file :=
  match content f !! pos f with
  | None => (inl EOFError, f)
  | Some (Pickled d) => (inr d, File (content f) (S (pos f)))
  | Some (Corrupt e) => (inl e, f)
  end.

(** [pickle.dump(d, f)]: in append mode every write lands at the end of the
    file, wherever the position is. *)
Definition pickle_dump (d : list (Z * run)) (f : file) : file :=
  File (content f ++ [Pickled d]) (S (length (content f))).

(** Leaving the [with] block closes the file: its content is on disk. *)
Definition close (path : string) (f : file) (w : world) : world :=
  World (<[path := content f]> (fs w)) (trace w).

Record repo : Type := Repo { head_commit : commit; common_dir : string }.

(** The local variables of [workflow_runs] that the [finally] block and the
    loop condition read. *)
Record sync_vars : Type := SyncVars {
  data : list (Z * run);
  new : nat;
  synced : bool;
}.

Inductive loop_exit : Type :=
  | Finished
  | Raised (e : exn)
  | OutOfFuel.

(** The body of the [for] loop, lines 64-68. *)
Definition merge_run (v : sync_vars) (r : run) : sync_vars :=
  let known_completed :=
    match dict_get (run_id r) (data v) with
    | Some stored => bool_decide (status stored = "completed")
    | None => false
    end in
  SyncVars (dict_set (run_id r) r (data v))
           (if known_completed then new v else S (new v))
           (if known_completed then true else synced v).

(** [res.json()["workflow_runs"]] and [res.json()["artifacts"]]. *)
Definition json_key {A : Type} (key : string) (field : json_body → option A)
    (res : response) : exn + A :=
  match json res with
  | None => inl JSONDecodeError
  | Some body =>
      match field body with
      | None => inl (KeyError key)
      | Some x => inr x
      end
  end.

Section Script.

(** The HTTP server: its answer to a GET (a response, or an exception
    raised by [requests]) given everything that happened before. *)
Variable http_get : list event → string → exn + response.

(** [shlex.quote] of the Python library. *)
Variable shlex_quote : string → string.

(** [subprocess.call]: the exit code of the remote session. *)
Variable subprocess_call : list event → list string → Z.

Definition session_get (url : string) (w : world) : (exn + response) * world :=
  (http_get (trace w) url, World (fs w) (trace w ++ [EGet url])).

(** The [while] loop of [workflow_runs], lines 56-72, from the test of its
    condition; [fuel] bounds the number of pages fetched. *)
Fixpoint sync_loop (fuel : nat) (url : string) (v : sync_vars) (w : world)
  : loop_exit * sync_vars * world :=
  if synced v then (Finished, v, w)
  else
    match fuel with
    | O => (OutOfFuel, v, w)
    | S fuel' =>
        let w := print "Fetching workflow runs ..." w in
        match session_get url w with
        | (inl e, w) => (Raised e, v, w)
        | (inr res, w) =>
            if bool_decide (status_code res ≠ 200%Z) then
              (Finished, v,
               print ("Unexpected response: " +:+ pretty (status_code res)
                      +:+ " " +:+ text res) w)
            else
              match json_key "workflow_runs" json_workflow_runs res with
              | inl e => (Raised e, v, w)
              | inr page =>
                  let v := foldl merge_run v page in
                  match links_next res with
                  | None => (Finished, v, w)
                  | Some next => sync_loop fuel' next v w
                  end
              end
        end
    end.

(** [os.path.join(repo.common_dir, "workflow_runs.pickle")], for a
    [common_dir] that does not end in a separator. *)
Definition store_path (r : repo) : string :=
  common_dir r +:+ "/workflow_runs.pickle".

(** Lines 51-79: the [try] ... [finally] around the loop, and the return. *)
Definition sync_and_persist (fuel : nat) (path : string) (f : file)
    (loaded : list (Z * run)) (w : world) : outcome (list (Z * run)) * world :=
  match sync_loop fuel ASSET_BUILDS_URL (SyncVars loaded 0 false) w with
  | (OutOfFuel, _, w) => (Hang, w)
  | (exit, v, w) =>
      let f := pickle_dump (data v) (truncate (seek 0 f)) in
      let w := print ("Added/updated " +:+ pretty (new v)
                      +:+ " workflow run(s).") w in
      let w := close path f w in
      match exit with
      | Raised e => (Raise e, w)
      | _ => (Ret (data v), w)
      end
  end.

(** [workflow_runs], lines 42-79. *)
Definition workflow_runs (r : repo) (fuel : nat) (w : world)
  : outcome (list (Z * run)) * world :=
  let path := store_path r in
  let '(f, w) := open_ab path w in
  match pickle_load (seek 0 f) with
  | (inr loaded, f) => sync_and_persist fuel path f loaded w
  | (inl EOFError, f) =>
      sync_and_persist fuel path f []
        (print "Created workflow run database." w)
  | (inl e, f) => (Raise e, close path f w)
  end.

(** The body of the [for] loop of [find_workflow_run], lines 87-97. *)
Definition select_step (wanted_commits : gset string)
    (acc : option run * world) (r : run) : option run * world :=
  let '(found, w) := acc in
  if bool_decide (head_commit_id r ∉ wanted_commits) then (found, w)
  else if bool_decide (status r ≠ "completed") then
    (found, print ("- " +:+ html_url r +:+ " pending.") w)
  else if bool_decide (conclusion r ≠ Some "success") then
    (found, print ("- " +:+ html_url r +:+ " failed.") w)
  else
    (match found with None => Some r | Some _ => found end,
     print ("- " +:+ html_url r +:+ " succeeded.") w).

(** [find_workflow_run], lines 82-103. *)
Definition find_workflow_run (runs : list (Z * run))
    (wanted_commits : gset string) (w : world) : outcome run * world :=
  let w := print "Matching workflow runs:" w in
  let '(found, w) := foldl (select_step wanted_commits) (None, w) (dict_values runs) in
  match found with
  | None =>
      (Raise (RuntimeError "Did not find successful matching workflow run."), w)
  | Some r => (Ret r, print ("Selected " +:+ html_url r +:+ ".") w)
  end.

(** The [for] loop of [artifact_url], lines 107-113. *)
Fixpoint scan_artifacts (artifacts : list artifact) (name : string) (w : world)
  : outcome string * world :=
  match artifacts with
  | [] => (Raise (RuntimeError ("Did not find artifact " +:+ name +:+ ".")), w)
  | a :: rest =>
      if bool_decide (artifact_name a = name) then
        (Ret (archive_download_url a),
         if artifact_expired a then print "Artifact expired." w else w)
      else scan_artifacts rest name w
  end.

(** [artifact_url], lines 106-113. *)
Definition artifact_url (r : run) (name : string) (w : world)
  : outcome string * world :=
  match session_get (artifacts_url r) w with
  | (inl e, w) => (Raise e, w)
  | (inr res, w) =>
      match json_key "artifacts" json_artifacts res with
      | inl e => (Raise e, w)
      | inr artifacts => scan_artifacts artifacts name w
      end
  end.

(** The list joined into the remote shell command, lines 145-153. *)
Definition deploy_command (authorization : string) (r : run) (url : string)
  : string :=
  let header := "Authorization: " +:+ authorization in
  let dir := "/home/lichess-artifacts/lila-assets-" +:+ pretty (run_id r) in
  let artifact_target := dir +:+ ".zip" in
  String.concat ";" [
    "mkdir -p /home/lichess-artifacts";
    "mkdir -p /home/lichess-deploy";
    "wget --header=" +:+ shlex_quote header +:+ " -O "
      +:+ shlex_quote artifact_target +:+ " --no-clobber " +:+ shlex_quote url;
    "unzip -q -o " +:+ shlex_quote artifact_target +:+ " -d " +:+ dir;
    "cat " +:+ dir +:+ "/commit.txt";
    "ln -f -s " +:+ dir +:+ "/public /home/lichess-deploy/public";
    "/bin/bash" ].

(** Lines 141-154: announce, sleep, and hand over to the remote session. *)
Definition deploy (authorization : string) (r : run) (url : string) : action Z :=
  λ w,
    let w := print ("Deploying " +:+ url +:+ " to khiaw ...") w in
    let w := World (fs w) (trace w ++ [ESleep 1]) in
    let argv := [ "ssh"; "-t"; "root@khiaw.lichess.ovh"; "tmux"; "new-session";
                  "-s"; "lila-deploy";
                  "/bin/sh -c " +:+ shlex_quote (deploy_command authorization r url) ] in
    (Ret (subprocess_call (trace w) argv),
     World (fs w) (trace w ++ [ECall argv])).

(** [main], lines 116-154: the exit code handed to [sys.exit], or the
    exception that ends the process. *)
Definition main (environ : gmap string string) (r : repo) (fuel : nat)
  : action Z :=
  match environ !! "GITHUB_API_TOKEN" with
  | None =>
      _ ← say ("Need environment variable GITHUB_API_TOKEN. "
               +:+ "See https://github.com/settings/tokens/new. "
               +:+ "Scope public_repo.");
      mret 128%Z
  | Some github_api_token =>
      let authorization := "token " +:+ github_api_token in
      runs ← workflow_runs r fuel;
      match hash_files (tree (head_commit r)) ASSET_FILES with
      | None => _ ← say "Commit is missing asset file."; mret 1%Z
      | Some wanted_hash =>
          let wanted_commits : gset string :=
            list_to_set (find_commits (head_commit r) ASSET_FILES wanted_hash) in
          _ ← say ("Found " +:+ pretty (size wanted_commits)
                   +:+ " matching commits.");
          found ← find_workflow_run runs wanted_commits;
          url ← artifact_url found "lila-assets";
          deploy authorization found url
      end
  end.

End Script.

(** ** What the properties are stated with *)

(** The qualifying runs of a store and the line reported for each,
    following the selection policy as the specification words it. *)
Definition qualifies (wanted_commits : gset string) (r : run) : Prop :=
  head_commit_id r ∈ wanted_commits.

Definition successful (r : run) : Prop :=
  status r = "completed" ∧ conclusion r = Some "success".

#[global] Instance qualifies_dec wanted_commits r :
  Decision (qualifies wanted_commits r).
Proof. unfold qualifies. apply _. Defined.

#[global] Instance successful_dec r : Decision (successful r).
Proof. unfold successful. apply _. Defined.

Definition disposition (r : run) : string :=
  if bool_decide (status r = "completed") then
    if bool_decide (conclusion r = Some "success") then "succeeded" else "failed"
  else "pending".

Definition report_line (r : run) : event :=
  EPrint ("- " +:+ html_url r +:+ " " +:+ disposition r +:+ ".").

(** The first run, in iteration order, that qualifies and is successful. *)
Definition select_spec (runs : list (Z * run)) (wanted_commits : gset string)
  : option run :=
  head (filter (λ r, qualifies wanted_commits r ∧ successful r) (dict_values runs)).

(** Overwrite by run id: a page merged into a store, statuses set aside. *)
Definition merge_page (d : list (Z * run)) (page : list run) : list (Z * run) :=
  foldl (λ d r, dict_set (run_id r) r d) d page.

(** What the next [pickle.load] of the store file will return. *)
Definition persisted (path : string) (w : world) : option (list (Z * run)) :=
  match fs w !! path with
  | Some (Pickled d :: _) => Some d
  | _ => None
  end.

(** A run that the server returns on some page of the listing, in a
    response with status 200. *)
Definition delivered (http_get : list event → string → exn + response)
    (r : run) : Prop :=
  ∃ history url res page,
    http_get history url = inr res ∧
    status_code res = 200%Z ∧
    json_key "workflow_runs" json_workflow_runs res = inr page ∧
    r ∈ page.

Definition is_get (e : event) : bool :=
  match e with EGet _ => true | _ => false end.

(** No HTTP request in a trace. *)
Definition no_network_call (events : list event) : Prop :=
  forallb (λ e, negb (is_get e)) events = true.

(** A commit reached from [c] through parent edges along which every
    commit, the reached one included, has the wanted identity; [sha] is the
    hexsha of the commit reached. *)
Inductive matching_chain (files wanted_hash : list string)
  : commit → string → Prop :=
  | chain_here c :
      hash_files (tree c) files = Some wanted_hash →
      matching_chain files wanted_hash c (hexsha c)
  | chain_parent c p sha :
      hash_files (tree c) files = Some wanted_hash →
      p ∈ parents c →
      matching_chain files wanted_hash p sha →
      matching_chain files wanted_hash c sha.

(** A store as Python builds it: no key twice, and every run under its own
    id. *)
Definition well_formed_store (d : list (Z * run)) : Prop :=
  NoDup d.*1 ∧ Forall (λ kv, kv.1 = run_id kv.2) d.

(** The store [workflow_runs] starts from: the first pickle of the file, the
    empty store when the load raises [EOFError], nothing when it raises
    another exception. *)
Definition opening_store (path : string) (w : world) : option (list (Z * run)) :=
  match fs w !! path with
  | None | Some [] => Some []
  | Some (Pickled d :: _) => Some d
  | Some (Corrupt e :: _) => if decide (e = EOFError) then Some [] else None
  end.

Definition is_call (e : event) : bool :=
  match e with ECall _ => true | _ => false end.

(** The argument vector [main] hands to [subprocess.call], lines 145-154. *)
Definition ssh_argv (shlex_quote : string → string) (authorization : string)
    (r : run) (url : string) : list string :=
  [ "ssh"; "-t"; "root@khiaw.lichess.ovh"; "tmux"; "new-session";
    "-s"; "lila-deploy";
    "/bin/sh -c " +:+ shlex_quote (deploy_command shlex_quote authorization r url) ].

(** From [w] to [w'] events were only appended, none of them a subprocess
    call, and no file other than [path] changed. *)
Definition quiet (path : string) (w w' : world) : Prop :=
  ∃ post,
    trace w' = trace w ++ post ∧
    Forall (λ e, is_call e = false) post ∧
    ∀ p, p ≠ path → fs w' !! p = fs w !! p.

(** ** Sample data *)

Module Sample.

Definition tree_with (ui : string) : gmap string string :=
  list_to_map [ (".github/workflows/assets.yml", "9f2c"); ("public", "41aa");
                ("ui", ui); ("package.json", "c07e"); ("yarn.lock", "d3b1") ].

Definition identity_u1 : list string := ["9f2c"; "41aa"; "u1"; "c07e"; "d3b1"].

(** C changed [ui]; B and A kept the tip's content. *)
Definition commit_C : commit := Commit "cccc" (tree_with "u0") [].
Definition commit_B : commit := Commit "bbbb" (tree_with "u1") [commit_C].
Definition commit_A : commit := Commit "aaaa" (tree_with "u1") [commit_B].

(** A head commit without [yarn.lock]. *)
Definition commit_bare : commit :=
  Commit "dddd" (delete "yarn.lock" (tree_with "u1")) [commit_A].

Definition R1 : run :=
  Run 101 "aaaa" "completed" (Some "failure")
      "https://github.com/runs/101" "https://api.github.com/runs/101/artifacts".
Definition R2 : run :=
  Run 102 "bbbb" "completed" (Some "success")
      "https://github.com/runs/102" "https://api.github.com/runs/102/artifacts".
(** Run 101 again, as a re-run in progress. *)
Definition R1_rerun : run :=
  Run 101 "aaaa" "in_progress" None
      "https://github.com/runs/101" "https://api.github.com/runs/101/artifacts".
Definition R3 : run :=
  Run 103 "eeee" "queued" None
      "https://github.com/runs/103" "https://api.github.com/runs/103/artifacts".

(** Run 103 as it stood once it had finished. *)
Definition R3_done : run :=
  Run 103 "eeee" "completed" (Some "success")
      "https://github.com/runs/103" "https://api.github.com/runs/103/artifacts".

Definition runs_page (page : list run) (next : option string) : response :=
  Response 200 EmptyString (Some (JsonBody (Some page) None)) next.

Definition page2_url : string := ASSET_BUILDS_URL +:+ "?page=2".

(** A listing of two pages, newest first: [R3], then [R1_rerun] and [R2];
    any other URL answers 404. *)
Definition two_pages : list event → string → exn + response :=
  λ _ url,
    if bool_decide (url = ASSET_BUILDS_URL) then
      inr (runs_page [R3] (Some page2_url))
    else if bool_decide (url = page2_url) then
      inr (runs_page [R1_rerun; R2] (Some (ASSET_BUILDS_URL +:+ "?page=3")))
    else inr (Response 404 "Not Found" None None).

(** The first page answers, the connection then drops. *)
Definition drops_after_first : list event → string → exn + response :=
  λ _ url,
    if bool_decide (url = ASSET_BUILDS_URL) then
      inr (runs_page [R3] (Some page2_url))
    else inl ConnectionError.

Definition always_503 : list event → string → exn + response :=
  λ _ _, inr (Response 503 "Service Unavailable" None None).

Definition artifacts_of (l : list artifact) : list event → string → exn + response :=
  λ _ _, inr (Response 200 EmptyString (Some (JsonBody None (Some l))) None).

Definition the_repo (c : commit) : repo := Repo c "/srv/lila/.git".
Definition store_file : string := "/srv/lila/.git/workflow_runs.pickle".

Definition fresh : world := World ∅ [].
Definition with_store (chunks : list chunk) : world :=
  World {[ store_file := chunks ]} [].

Definition token_env : gmap string string := {[ "GITHUB_API_TOKEN" := "s3cr3t" ]}.

(** A page of unfinished runs whose next link is its own URL. *)
Definition page_loops : list event → string → exn + response :=
  λ _ _, inr (runs_page [R1_rerun; R3] (Some ASSET_BUILDS_URL)).

(** The listing of one page, [R1] then [R2], and for any other URL a 404
    whose body lists an expired and a fresh artifact. *)
Definition one_page : list event → string → exn + response :=
  λ _ url,
    if bool_decide (url = ASSET_BUILDS_URL) then inr (runs_page [R1; R2] None)
    else inr (Response 404 "Not Found"
                (Some (JsonBody None
                   (Some [ Artifact "lila-assets" false
                             "https://api.github.com/artifacts/9/zip" ])))
                None).

(** Stand-ins for [shlex.quote] and for the remote session; neither is
    reached when the head commit lacks a tracked path. *)
Definition quote_as_is : string → string := λ s, s.
Definition session_exits_0 : list event → list string → Z := λ _ _, 0%Z.

End Sample.

(** * Properties *)

(** ** AncestryMatcher *)

Section Ancestry.

Variables files wanted_hash : list string.

(** One step of the walk, by the outcome of the comparison at [c]. *)
Lemma find_commits_step c :
  find_commits c files wanted_hash =
    if bool_decide (hash_files (tree c) files = Some wanted_hash) then
      hexsha c :: flat_map (λ p, find_commits p files wanted_hash) (parents c)
    else [].
Proof.
  destruct c as [sha t ps]; simpl.
  destruct (hash_files t files) as [h|] eqn:Hh.
  - destruct (decide (h = wanted_hash)) as [->|Hne].
    + rewrite bool_decide_eq_false_2, bool_decide_eq_true_2; auto.
    + rewrite bool_decide_eq_true_2, bool_decide_eq_false_2; congruence.
  - rewrite bool_decide_eq_false_2; congruence.
Qed.

Lemma visited_commits_step c :
  visited_commits c files wanted_hash =
    hexsha c ::
    if bool_decide (hash_files (tree c) files = Some wanted_hash) then
      flat_map (λ p, visited_commits p files wanted_hash) (parents c)
    else [].
Proof.
  destruct c as [sha t ps]; simpl.
  destruct (hash_files t files) as [h|] eqn:Hh.
  - destruct (decide (h = wanted_hash)) as [->|Hne].
    + rewrite bool_decide_eq_false_2, bool_decide_eq_true_2; auto.
    + rewrite bool_decide_eq_true_2, bool_decide_eq_false_2; congruence.
  - rewrite bool_decide_eq_false_2; congruence.
Qed.

Lemma find_commits_differs c :
  hash_files (tree c) files ≠ Some wanted_hash →
  find_commits c files wanted_hash = [] ∧
  visited_commits c files wanted_hash = [hexsha c].
Proof.
  intros Hne. rewrite find_commits_step, visited_commits_step.
  by rewrite bool_decide_eq_false_2.
Qed.

Lemma find_commits_matches c :
  hash_files (tree c) files = Some wanted_hash →
  find_commits c files wanted_hash =
    hexsha c :: flat_map (λ p, find_commits p files wanted_hash) (parents c) ∧
  visited_commits c files wanted_hash =
    hexsha c :: flat_map (λ p, visited_commits p files wanted_hash) (parents c).
Proof.
  intros Heq. rewrite find_commits_step, visited_commits_step.
  by rewrite bool_decide_eq_true_2.
Qed.

End Ancestry.

(** C4. The walk is depth first and prunes on the first mismatch: a visited
    commit whose identity differs from the target, a missing tracked path
    included, is not emitted and no parent of it is visited; a visited
    commit whose identity matches is emitted and each of its parents is
    walked in turn. So when A and its only parent B match and B's only
    parent C differs, the walk visits A, B and C and emits exactly A and B. *)
Theorem find_commits_prunes_at_first_difference (files wanted_hash : list string) :
  (∀ c, hash_files (tree c) files ≠ Some wanted_hash →
        find_commits c files wanted_hash = [] ∧
        visited_commits c files wanted_hash = [hexsha c]) ∧
  (∀ c, hash_files (tree c) files = None →
        find_commits c files wanted_hash = [] ∧
        visited_commits c files wanted_hash = [hexsha c]) ∧
  (∀ c, hash_files (tree c) files = Some wanted_hash →
        find_commits c files wanted_hash =
          hexsha c :: flat_map (λ p, find_commits p files wanted_hash) (parents c) ∧
        visited_commits c files wanted_hash =
          hexsha c :: flat_map (λ p, visited_commits p files wanted_hash) (parents c)) ∧
  (∀ a b tree_a tree_b c,
        hash_files tree_a files = Some wanted_hash →
        hash_files tree_b files = Some wanted_hash →
        hash_files (tree c) files ≠ Some wanted_hash →
        let tip := Commit a tree_a [Commit b tree_b [c]] in
        find_commits tip files wanted_hash = [a; b] ∧
        visited_commits tip files wanted_hash = [a; b; hexsha c] ∧
        (list_to_set (find_commits tip files wanted_hash) : gset string) = {[a; b]}).
Proof.
  split_and!.
  - apply find_commits_differs.
  - intros c Hnone. apply find_commits_differs. congruence.
  - apply find_commits_matches.
  - intros a b ta tb c Ha Hb Hc tip.
    pose proof (find_commits_differs files wanted_hash c Hc) as [Hfc Hvc].
    assert (find_commits tip files wanted_hash = [a; b]) as Hemit.
    { unfold tip.
      rewrite (proj1 (find_commits_matches files wanted_hash
                        (Commit a ta [Commit b tb [c]]) Ha)).
      cbn [flat_map parents hexsha].
      rewrite (proj1 (find_commits_matches files wanted_hash
                        (Commit b tb [c]) Hb)).
      cbn [flat_map parents hexsha]. by rewrite Hfc. }
    split_and!; [done | | rewrite Hemit; set_solver].
    unfold tip.
    rewrite (proj2 (find_commits_matches files wanted_hash
                      (Commit a ta [Commit b tb [c]]) Ha)).
    cbn [flat_map parents hexsha].
    rewrite (proj2 (find_commits_matches files wanted_hash
                      (Commit b tb [c]) Hb)).
    cbn [flat_map parents hexsha]. by rewrite Hvc.
Qed.

Lemma find_commits_prunes_at_first_difference_witness :
  find_commits Sample.commit_A ASSET_FILES Sample.identity_u1 = ["aaaa"; "bbbb"] ∧
  visited_commits Sample.commit_A ASSET_FILES Sample.identity_u1
    = ["aaaa"; "bbbb"; "cccc"] ∧
  (list_to_set (find_commits Sample.commit_A ASSET_FILES Sample.identity_u1)
     : gset string) = {["aaaa"; "bbbb"]}.
Proof.
  apply (find_commits_prunes_at_first_difference ASSET_FILES Sample.identity_u1).
  - vm_compute; reflexivity.
  - vm_compute; reflexivity.
  - vm_compute; discriminate.
Defined.

(** C10. A commit whose identity over the tracked paths is defined is the
    first commit its own walk emits, so the deduplicated set of matching
    commits contains the head commit and is not empty. *)
Theorem find_commits_emits_start (c : commit) (files h : list string) :
  hash_files (tree c) files = Some h →
  head (find_commits c files h) = Some (hexsha c) ∧
  hexsha c ∈ (list_to_set (find_commits c files h) : gset string) ∧
  (list_to_set (find_commits c files h) : gset string) ≠ ∅ ∧
  0 < size (list_to_set (find_commits c files h) : gset string).
Proof.
  intros Hh.
  rewrite (proj1 (find_commits_matches files h c Hh)); simpl.
  assert (hexsha c ∈ ({[hexsha c]} ∪
            list_to_set (flat_map (λ p, find_commits p files h) (parents c))
            : gset string)) as Hin by set_solver.
  split_and!; [done | done | set_solver |].
  destruct (decide (size ({[hexsha c]} ∪
            list_to_set (flat_map (λ p, find_commits p files h) (parents c))
            : gset string) = 0)) as [Hz|Hnz]; [|lia].
  apply size_empty_inv in Hz. set_solver.
Qed.

Lemma find_commits_emits_start_witness :
  head (find_commits Sample.commit_A ASSET_FILES Sample.identity_u1) = Some "aaaa" ∧
  "aaaa" ∈ (list_to_set (find_commits Sample.commit_A ASSET_FILES
                           Sample.identity_u1) : gset string) ∧
  (list_to_set (find_commits Sample.commit_A ASSET_FILES Sample.identity_u1)
     : gset string) ≠ ∅ ∧
  0 < size (list_to_set (find_commits Sample.commit_A ASSET_FILES
                           Sample.identity_u1) : gset string).
Proof.
  apply (find_commits_emits_start Sample.commit_A ASSET_FILES Sample.identity_u1).
  vm_compute; reflexivity.
Defined.

(** ** RunSelector *)

Section Selector.

Variable wanted_commits : gset string.

Let eligible (r : run) : Prop := qualifies wanted_commits r ∧ successful r.

(** The loop keeps the first successful qualifying run it meets and
    prints one line per qualifying run. *)
Lemma foldl_select_step (l : list run) (found : option run) (w : world) :
  foldl (select_step wanted_commits) (found, w) l =
    (match found with
     | Some _ => found
     | None => head (filter eligible l)
     end,
     World (fs w)
           (trace w ++ (report_line <$> filter (qualifies wanted_commits) l))).
Proof.
  revert found w.
  induction l as [|r l IH]; intros found w.
  - simpl. rewrite app_nil_r. by destruct found, w.
  - cbn [foldl]. unfold select_step at 2.
    destruct (decide (qualifies wanted_commits r)) as [Hq|Hq].
    + rewrite (filter_cons_True (qualifies wanted_commits)) by done.
      rewrite bool_decide_eq_false_2 by (intros Hn; by apply Hn).
      cbn [fmap list_fmap]. rewrite (cons_middle (report_line r)), app_assoc.
      unfold report_line at 1, disposition.
      destruct (decide (status r = "completed")) as [Hs|Hs].
      * rewrite (bool_decide_eq_false_2 (status r ≠ "completed")) by tauto.
        rewrite (bool_decide_eq_true_2 (status r = "completed")) by done.
        destruct (decide (conclusion r = Some "success")) as [Hc|Hc].
        -- rewrite (bool_decide_eq_false_2 (conclusion r ≠ Some "success"))
             by tauto.
           rewrite (bool_decide_eq_true_2 (conclusion r = Some "success"))
             by done.
           rewrite IH.
           rewrite (filter_cons_True eligible) by (by repeat split).
           by destruct found.
        -- rewrite (bool_decide_eq_true_2 (conclusion r ≠ Some "success"))
             by done.
           rewrite (bool_decide_eq_false_2 (conclusion r = Some "success"))
             by done.
           rewrite IH.
           rewrite (filter_cons_False eligible)
             by (intros (_ & _ & ?); contradiction).
           done.
      * rewrite (bool_decide_eq_true_2 (status r ≠ "completed")) by done.
        rewrite (bool_decide_eq_false_2 (status r = "completed")) by done.
        rewrite IH.
        rewrite (filter_cons_False eligible)
          by (intros (_ & ? & _); contradiction).
        done.
    + rewrite (filter_cons_False (qualifies wanted_commits)) by done.
      rewrite bool_decide_eq_true_2 by done.
      rewrite IH.
      rewrite (filter_cons_False eligible) by (intros (? & _); contradiction).
      done.
Qed.

(** The head of a filtered list is the first element with the property. *)
Lemma head_filter_first (l : list run) (r : run) :
  head (filter eligible l) = Some r →
  ∃ before after,
    l = before ++ r :: after ∧ eligible r ∧
    Forall (λ r', ¬ eligible r') before.
Proof.
  induction l as [|x l IH]; [done|].
  destruct (decide (eligible x)) as [Hx|Hx].
  - rewrite filter_cons_True by done. intros [= ->].
    exists [], l. split_and!; [done | done | constructor].
  - rewrite filter_cons_False by done. intros Hl.
    destruct (IH Hl) as (before & after & -> & Hr & Hb).
    exists (x :: before), after. split_and!; [done | done |].
    by constructor.
Qed.

Lemma head_filter_none (l : list run) :
  head (filter eligible l) = None ↔ Forall (λ r', ¬ eligible r') l.
Proof.
  induction l as [|x l IH]; [by split; [constructor|]|].
  destruct (decide (eligible x)) as [Hx|Hx].
  - rewrite filter_cons_True by done. split; [done|].
    intros Hall. by inversion Hall.
  - rewrite filter_cons_False by done. rewrite IH. split.
    + by constructor.
    + intros Hall. by inversion Hall.
Qed.

Lemma find_workflow_run_spec (runs : list (Z * run)) (w : world) :
  find_workflow_run runs wanted_commits w =
    let reported :=
      EPrint "Matching workflow runs:" ::
      (report_line <$> filter (qualifies wanted_commits) (dict_values runs)) in
    match select_spec runs wanted_commits with
    | Some r =>
        (Ret r,
         World (fs w)
               (trace w ++ reported ++ [EPrint ("Selected " +:+ html_url r +:+ ".")]))
    | None =>
        (Raise (RuntimeError "Did not find successful matching workflow run."),
         World (fs w) (trace w ++ reported))
    end.
Proof.
  unfold find_workflow_run. rewrite foldl_select_step.
  unfold select_spec. fold eligible.
  destruct (head (filter eligible (dict_values runs))) as [r|];
    unfold print; cbn [fs trace]; do 2 f_equal;
    by rewrite <- !app_assoc.
Qed.

End Selector.

(** C3. [find_workflow_run] returns the first run, in the iteration order of
    the store, whose head commit is in the matching set, whose status is
    completed and whose conclusion is success, and no run that fails one of
    the three; it prints the disposition of every qualifying run, whatever
    its status and conclusion; when no qualifying run is successful it
    raises the "Did not find successful matching workflow run." error. With
    the matching set {A, B}, a failed run R1 for A and a successful run R2
    for B, both are reported and R2 is selected. *)
Theorem find_workflow_run_first_success
    (runs : list (Z * run)) (wanted_commits : gset string) (w : world) :
  let reported :=
    EPrint "Matching workflow runs:" ::
    (report_line <$> filter (qualifies wanted_commits) (dict_values runs)) in
  find_workflow_run runs wanted_commits w =
    match select_spec runs wanted_commits with
    | Some r =>
        (Ret r,
         World (fs w)
               (trace w ++ reported ++ [EPrint ("Selected " +:+ html_url r +:+ ".")]))
    | None =>
        (Raise (RuntimeError "Did not find successful matching workflow run."),
         World (fs w) (trace w ++ reported))
    end ∧
  (∀ r, (find_workflow_run runs wanted_commits w).1 = Ret r →
        ∃ before after,
          dict_values runs = before ++ r :: after ∧
          head_commit_id r ∈ wanted_commits ∧
          status r = "completed" ∧ conclusion r = Some "success" ∧
          Forall (λ r', ¬ (qualifies wanted_commits r' ∧ successful r')) before) ∧
  (Forall (λ r', ¬ (qualifies wanted_commits r' ∧ successful r')) (dict_values runs) →
   (find_workflow_run runs wanted_commits w).1 =
     Raise (RuntimeError "Did not find successful matching workflow run.")) ∧
  (∀ r1 r2 a b,
      head_commit_id r1 = a → status r1 = "completed" →
      conclusion r1 = Some "failure" →
      head_commit_id r2 = b → status r2 = "completed" →
      conclusion r2 = Some "success" →
      find_workflow_run [(run_id r1, r1); (run_id r2, r2)] {[a; b]} w =
        (Ret r2,
         World (fs w)
               (trace w ++ [ EPrint "Matching workflow runs:";
                             EPrint ("- " +:+ html_url r1 +:+ " failed.");
                             EPrint ("- " +:+ html_url r2 +:+ " succeeded.");
                             EPrint ("Selected " +:+ html_url r2 +:+ ".") ]))).
Proof.
  intros reported. split_and!.
  - apply find_workflow_run_spec.
  - intros r. rewrite find_workflow_run_spec.
    destruct (select_spec runs wanted_commits) as [r'|] eqn:Hsel; [|done].
    cbn. intros [= ->].
    apply head_filter_first in Hsel
      as (before & after & Hsplit & (Hq & Hs & Hc) & Hbefore).
    by exists before, after.
  - intros Hall. rewrite find_workflow_run_spec.
    apply head_filter_none in Hall. unfold select_spec. by rewrite Hall.
  - intros r1 r2 a b Ha Hs1 Hc1 Hb Hs2 Hc2.
    rewrite find_workflow_run_spec. unfold select_spec, dict_values.
    cbn [fmap list_fmap snd].
    assert (qualifies {[a; b]} r1) as Hq1 by (unfold qualifies; set_solver).
    assert (qualifies {[a; b]} r2) as Hq2 by (unfold qualifies; set_solver).
    rewrite (filter_cons_False _ r1)
      by (intros (_ & _ & Hc); rewrite Hc1 in Hc; discriminate).
    rewrite (filter_cons_True _ r2) by done.
    rewrite (filter_cons_True (qualifies {[a; b]}) r1) by done.
    rewrite (filter_cons_True (qualifies {[a; b]}) r2) by done.
    rewrite filter_nil. cbn [head fmap list_fmap].
    unfold report_line, disposition. rewrite Hs1, Hs2, Hc1, Hc2.
    done.
Qed.

Lemma find_workflow_run_first_success_witness :
  find_workflow_run [(101%Z, Sample.R1); (102%Z, Sample.R2)]
                    {["aaaa"; "bbbb"]} Sample.fresh =
    (Ret Sample.R2,
     World ∅ [ EPrint "Matching workflow runs:";
               EPrint "- https://github.com/runs/101 failed.";
               EPrint "- https://github.com/runs/102 succeeded.";
               EPrint "Selected https://github.com/runs/102." ]).
Proof.
  pose proof (find_workflow_run_first_success
                [(101%Z, Sample.R1); (102%Z, Sample.R2)]
                {["aaaa"; "bbbb"]} Sample.fresh) as (_ & _ & _ & Hscenario).
  apply (Hscenario Sample.R1 Sample.R2 "aaaa" "bbbb"); reflexivity.
Defined.

(** ** ArtifactLocator *)

Lemma scan_artifacts_spec (artifacts : list artifact) (name : string) (w : world) :
  scan_artifacts artifacts name w =
    match head (filter (λ a, artifact_name a = name) artifacts) with
    | Some a =>
        (Ret (archive_download_url a),
         if artifact_expired a then print "Artifact expired." w else w)
    | None => (Raise (RuntimeError ("Did not find artifact " +:+ name +:+ ".")), w)
    end.
Proof.
  induction artifacts as [|a rest IH]; [done|].
  cbn [scan_artifacts]. case_bool_decide as Hname.
  - by rewrite filter_cons_True.
  - by rewrite filter_cons_False.
Qed.

Lemma head_filter_is_Some {A} (P : A → Prop) `{!∀ x, Decision (P x)} (l : list A) :
  is_Some (head (filter P l)) ↔ ∃ x, x ∈ l ∧ P x.
Proof.
  split.
  - intros [x Hx]. exists x.
    assert (x ∈ filter P l) as Hin.
    { destruct (filter P l); [done|]. injection Hx as ->. left. }
    apply list_elem_of_filter in Hin. tauto.
  - intros (x & Hin & HP).
    assert (x ∈ filter P l) as Hx by (by apply list_elem_of_filter).
    destruct (filter P l); [by apply not_elem_of_nil in Hx | by eexists].
Qed.

(** C9. On the artifact listing of the run, [artifact_url] returns a
    download URL if and only if some artifact of the listing has exactly
    the wanted name, and raises the "Did not find artifact" error
    otherwise; names are compared as they are, so ["Lila-Assets"] does not
    match ["lila-assets"]. The URL is that of the first artifact with the
    name; when that artifact is expired, "Artifact expired." is printed and
    the URL is returned all the same. *)
Theorem artifact_url_exact_name
    (http_get : list event → string → exn + response)
    (r : run) (name : string) (w : world)
    (res : response) (artifacts : list artifact) :
  http_get (trace w) (artifacts_url r) = inr res →
  json_key "artifacts" json_artifacts res = inr artifacts →
  let listed := World (fs w) (trace w ++ [EGet (artifacts_url r)]) in
  ((∃ url, (artifact_url http_get r name w).1 = Ret url) ↔
   (∃ a, a ∈ artifacts ∧ artifact_name a = name)) ∧
  ((¬ ∃ a, a ∈ artifacts ∧ artifact_name a = name) →
   artifact_url http_get r name w =
     (Raise (RuntimeError ("Did not find artifact " +:+ name +:+ ".")), listed)) ∧
  (∀ a, head (filter (λ a, artifact_name a = name) artifacts) = Some a →
        artifact_name a = name ∧
        artifact_url http_get r name w =
          (Ret (archive_download_url a),
           if artifact_expired a then print "Artifact expired." listed
           else listed)) ∧
  (∀ a, artifacts = [a] → artifact_name a = "Lila-Assets" → name = "lila-assets" →
        artifact_url http_get r name w =
          (Raise (RuntimeError "Did not find artifact lila-assets."), listed)).
Proof.
  intros Hget Hjson listed.
  assert (artifact_url http_get r name w = scan_artifacts artifacts name listed)
    as Hrun.
  { unfold artifact_url, session_get. by rewrite Hget, Hjson. }
  rewrite Hrun, scan_artifacts_spec.
  pose proof (head_filter_is_Some (λ a, artifact_name a = name) artifacts) as Hex.
  split_and!.
  - rewrite <- Hex.
    destruct (head (filter _ artifacts)) as [a|]; cbn; split.
    + by eexists.
    + by eexists.
    + by intros [? ?].
    + by intros [? ?].
  - intros Hnone.
    destruct (head (filter _ artifacts)) as [a|] eqn:Hhead; [|done].
    exfalso. apply Hnone, Hex. by eexists.
  - intros a Ha. rewrite Ha. split; [|done].
    assert (a ∈ filter (λ a, artifact_name a = name) artifacts) as Hin.
    { destruct (filter _ artifacts); [done|]. injection Ha as ->. left. }
    by apply list_elem_of_filter in Hin as [? _].
  - intros a -> Ha ->.
    rewrite filter_cons_False by (rewrite Ha; discriminate).
    by rewrite filter_nil.
Qed.

Lemma artifact_url_exact_name_witness :
  artifact_url
    (Sample.artifacts_of
       [ Artifact "Lila-Assets" false "https://api.github.com/artifacts/7/zip";
         Artifact "lila-assets" true "https://api.github.com/artifacts/8/zip";
         Artifact "lila-assets" false "https://api.github.com/artifacts/9/zip" ])
    Sample.R2 "lila-assets" Sample.fresh =
    (Ret "https://api.github.com/artifacts/8/zip",
     World ∅ [ EGet "https://api.github.com/runs/102/artifacts";
               EPrint "Artifact expired." ]).
Proof.
  pose proof (artifact_url_exact_name
    (Sample.artifacts_of
       [ Artifact "Lila-Assets" false "https://api.github.com/artifacts/7/zip";
         Artifact "lila-assets" true "https://api.github.com/artifacts/8/zip";
         Artifact "lila-assets" false "https://api.github.com/artifacts/9/zip" ])
    Sample.R2 "lila-assets" Sample.fresh _ _ eq_refl eq_refl)
    as (_ & _ & Hfirst & _).
  exact (proj2 (Hfirst (Artifact "lila-assets" true
                          "https://api.github.com/artifacts/8/zip") eq_refl)).
Defined.

(** ** RunCache: the store as a dict *)

Lemma dict_get_set (k k' : Z) (v : run) (d : list (Z * run)) :
  dict_get k (dict_set k' v d) =
    if bool_decide (k' = k) then Some v else dict_get k d.
Proof.
  induction d as [|[k0 v0] d IH]; cbn.
  - done.
  - destruct (decide (k0 = k')) as [->|Hne].
    + rewrite (bool_decide_eq_true_2 (k' = k')) by done. cbn.
      by case_bool_decide.
    + rewrite (bool_decide_eq_false_2 (k0 = k')) by done. cbn.
      rewrite IH. repeat case_bool_decide; congruence.
Qed.

Lemma dict_set_keeps_keys (k k' : Z) (v : run) (d : list (Z * run)) :
  is_Some (dict_get k d) → is_Some (dict_get k (dict_set k' v d)).
Proof. rewrite dict_get_set. by case_bool_decide. Qed.

Lemma data_foldl_merge_run (page : list run) (v : sync_vars) :
  data (foldl merge_run v page) = merge_page (data v) page.
Proof.
  revert v. induction page as [|r page IH]; intros v; [done|].
  cbn [foldl]. by rewrite IH.
Qed.

(** After a page is merged, a run id holds the last copy the page has of
    it, and what it held before when the page has none. *)
Lemma dict_get_merge_page (page : list run) (d : list (Z * run)) (k : Z) :
  dict_get k (merge_page d page) =
    match last (filter (λ r, run_id r = k) page) with
    | Some r => Some r
    | None => dict_get k d
    end.
Proof.
  revert d. induction page as [|r page IH]; intros d; [done|].
  unfold merge_page in *. cbn [foldl]. rewrite IH, dict_get_set.
  destruct (decide (run_id r = k)) as [Hk|Hk].
  - rewrite filter_cons_True by done. rewrite bool_decide_eq_true_2 by done.
    rewrite last_cons. by destruct (last (filter _ page)).
  - rewrite filter_cons_False by done. by rewrite bool_decide_eq_false_2.
Qed.

Lemma synced_merge_run_mono (v : sync_vars) (r : run) :
  synced v = true → synced (merge_run v r) = true.
Proof.
  intros Hs. unfold merge_run; cbn. rewrite Hs.
  destruct (dict_get _ _) as [stored|]; [|done].
  by destruct (bool_decide _).
Qed.

Lemma synced_foldl_merge_run_mono (page : list run) (v : sync_vars) :
  synced v = true → synced (foldl merge_run v page) = true.
Proof.
  revert v. induction page as [|r page IH]; intros v Hs; [done|].
  cbn [foldl]. by apply IH, synced_merge_run_mono.
Qed.

(** A page that has a run whose id the store holds as completed sets the
    [synced] flag, wherever the run stands in the page. *)
Lemma synced_foldl_merge_run_hit (page : list run) (v : sync_vars) :
  (∃ r stored, r ∈ page ∧ dict_get (run_id r) (data v) = Some stored ∧
               status stored = "completed") →
  synced (foldl merge_run v page) = true.
Proof.
  revert v. induction page as [|x page IH]; intros v (r & stored & Hin & Hget & Hst).
  - by apply not_elem_of_nil in Hin.
  - cbn [foldl].
    destruct (decide (run_id x = run_id r)) as [Hid|Hid].
    + apply synced_foldl_merge_run_mono. unfold merge_run; cbn.
      rewrite Hid, Hget. by rewrite bool_decide_eq_true_2.
    + apply IH. exists r, stored. split_and!; [|  |done].
      * apply elem_of_cons in Hin as [->|Hin]; [done | done].
      * unfold merge_run; cbn. rewrite dict_get_set.
        by rewrite bool_decide_eq_false_2.
Qed.

(** ** RunCache: the pagination loop *)

Section Sync.

Variable http_get : list event → string → exn + response.

(** One turn of the loop, spelled out. *)
Lemma sync_loop_turn (fuel : nat) (url : string) (v : sync_vars) (w : world) :
  synced v = false →
  sync_loop http_get (S fuel) url v w =
    let w1 := World (fs w) (trace w ++ [EPrint "Fetching workflow runs ..."]) in
    let w2 := World (fs w) (trace w1 ++ [EGet url]) in
    match http_get (trace w1) url with
    | inl e => (Raised e, v, w2)
    | inr res =>
        if bool_decide (status_code res ≠ 200%Z) then
          (Finished, v,
           print ("Unexpected response: " +:+ pretty (status_code res)
                  +:+ " " +:+ text res) w2)
        else
          match json_key "workflow_runs" json_workflow_runs res with
          | inl e => (Raised e, v, w2)
          | inr page =>
              match links_next res with
              | None => (Finished, foldl merge_run v page, w2)
              | Some next =>
                  sync_loop http_get fuel next (foldl merge_run v page) w2
              end
          end
    end.
Proof. intros Hs. cbn [sync_loop]. rewrite Hs. reflexivity. Qed.

Lemma sync_loop_synced (fuel : nat) (url : string) (v : sync_vars) (w : world) :
  synced v = true → sync_loop http_get fuel url v w = (Finished, v, w).
Proof. intros Hs. destruct fuel; cbn [sync_loop]; by rewrite Hs. Qed.

(** The loop only appends to the trace and leaves the disk alone. *)
Lemma sync_loop_world (fuel : nat) (url : string) (v : sync_vars) (w : world) :
  ∃ post, (sync_loop http_get fuel url v w).2 = World (fs w) (trace w ++ post).
Proof.
  revert url v w. induction fuel as [|fuel IH]; intros url v w.
  - exists []. cbn. rewrite app_nil_r. by destruct (synced v), w.
  - destruct (synced v) eqn:Hs.
    { exists []. rewrite sync_loop_synced by done. cbn.
      rewrite app_nil_r. by destruct w. }
    rewrite sync_loop_turn by done. cbn zeta. cbn [trace fs].
    destruct (http_get _ url) as [e|res].
    { eexists. cbn. by rewrite <- app_assoc. }
    case_bool_decide.
    { eexists. unfold print. cbn. by rewrite <- !app_assoc. }
    destruct (json_key _ _ res) as [e|page].
    { eexists. cbn. by rewrite <- app_assoc. }
    destruct (links_next res) as [next|].
    + destruct (IH next (foldl merge_run v page)
                  (World (fs w) ((trace w ++ [EPrint "Fetching workflow runs ..."])
                                 ++ [EGet url]))) as [post Hpost].
      eexists. rewrite Hpost. cbn. by rewrite <- !app_assoc.
    + eexists. cbn. by rewrite <- app_assoc.
Qed.

(** A loop that ends, entered with [synced] false, has printed its notice
    and requested its first page. *)
Lemma sync_loop_fetches_first (fuel : nat) (url : string)
    (v v' : sync_vars) (w w' : world) (exit : loop_exit) :
  sync_loop http_get fuel url v w = (exit, v', w') →
  synced v = false → exit ≠ OutOfFuel →
  ∃ post, fs w' = fs w ∧
    trace w' = trace w ++ EPrint "Fetching workflow runs ..." :: EGet url :: post.
Proof.
  intros Hrun Hs Hexit. destruct fuel as [|fuel].
  { cbn in Hrun. rewrite Hs in Hrun. congruence. }
  rewrite sync_loop_turn in Hrun by done. cbn zeta in Hrun. cbn [trace fs] in Hrun.
  destruct (http_get _ url) as [e|res].
  { injection Hrun as _ _ <-. exists []. cbn. by rewrite <- app_assoc. }
  case_bool_decide.
  { injection Hrun as _ _ <-. eexists. unfold print. cbn.
    by rewrite <- !app_assoc. }
  destruct (json_key _ _ res) as [e|page].
  { injection Hrun as _ _ <-. exists []. cbn. by rewrite <- app_assoc. }
  destruct (links_next res) as [next|].
  - destruct (sync_loop_world fuel next (foldl merge_run v page)
                (World (fs w) ((trace w ++ [EPrint "Fetching workflow runs ..."])
                               ++ [EGet url]))) as [post Hpost].
    rewrite Hrun in Hpost. cbn in Hpost. subst w'. exists post. cbn.
    by rewrite <- !app_assoc.
  - injection Hrun as _ _ <-. exists []. cbn. by rewrite <- app_assoc.
Qed.

(** What every merge of a delivered run preserves, the loop preserves. *)
Lemma sync_loop_invariant (I : sync_vars → Prop) :
  (∀ v r, delivered http_get r → I v → I (merge_run v r)) →
  ∀ fuel url v w, I v → I (sync_loop http_get fuel url v w).1.2.
Proof.
  intros Hstep.
  assert (∀ page v, Forall (delivered http_get) page → I v →
                    I (foldl merge_run v page)) as Hpage.
  { induction page as [|r page IH]; intros v Hall Hv; [done|].
    inversion Hall; subst. cbn [foldl]. apply IH; [done|]. by apply Hstep. }
  induction fuel as [|fuel IH]; intros url v w Hv.
  - cbn. by destruct (synced v).
  - destruct (synced v) eqn:Hs.
    { by rewrite sync_loop_synced. }
    rewrite sync_loop_turn by done. cbn zeta.
    destruct (http_get _ url) as [e|res] eqn:Hget; [done|].
    case_bool_decide as Hstatus; [done|].
    destruct (json_key _ _ res) as [e|page] eqn:Hjson; [done|].
    assert (I (foldl merge_run v page)) as Hv'.
    { apply Hpage; [|done]. apply Forall_forall. intros r Hr.
      exists (trace w ++ [EPrint "Fetching workflow runs ..."]), url, res, page.
      split_and!; [done | | done | done].
      destruct (decide (status_code res = 200%Z)); [done | contradiction]. }
    destruct (links_next res) as [next|]; [by apply IH | done].
Qed.

End Sync.

(** ** RunCache: loading and persisting *)

Section Cache.

Variable http_get : list event → string → exn + response.

(** The [finally] block by the way the loop ended: whatever the file
    held, it now holds the in-memory store and nothing else. *)
Lemma sync_and_persist_spec (fuel : nat) (path : string) (f : file)
    (loaded : list (Z * run)) (w : world) :
  sync_and_persist http_get fuel path f loaded w =
    let '(exit, v, w1) :=
      sync_loop http_get fuel ASSET_BUILDS_URL (SyncVars loaded 0 false) w in
    let w2 :=
      World (<[path := [Pickled (data v)]]> (fs w1))
            (trace w1 ++ [EPrint ("Added/updated " +:+ pretty (new v)
                                  +:+ " workflow run(s).")]) in
    match exit with
    | Finished => (Ret (data v), w2)
    | Raised e => (Raise e, w2)
    | OutOfFuel => (Hang, w1)
    end.
Proof.
  unfold sync_and_persist.
  destruct (sync_loop _ _ _ _ _) as [[exit v] w1].
  by destruct exit.
Qed.

Lemma workflow_runs_loaded (r : repo) (fuel : nat) (w : world)
    (loaded : list (Z * run)) (rest : list chunk) :
  fs w !! store_path r = Some (Pickled loaded :: rest) →
  workflow_runs http_get r fuel w =
    sync_and_persist http_get fuel (store_path r)
      (File (Pickled loaded :: rest) 1) loaded w.
Proof.
  intros Hfile. unfold workflow_runs, open_ab. rewrite Hfile. cbn.
  rewrite insert_id by done. by destruct w.
Qed.

(** An absent file, an empty file and a file on which [pickle.load]
    raises [EOFError] all start the sync from the empty store. *)
Lemma workflow_runs_created (r : repo) (fuel : nat) (w : world) :
  fs w !! store_path r = None ∨ fs w !! store_path r = Some [] ∨
  (∃ rest, fs w !! store_path r = Some (Corrupt EOFError :: rest)) →
  let c := default [] (fs w !! store_path r) in
  workflow_runs http_get r fuel w =
    sync_and_persist http_get fuel (store_path r) (File c 0) []
      (print "Created workflow run database."
             (World (<[store_path r := c]> (fs w)) (trace w))).
Proof.
  intros [Hfile|[Hfile|[rest Hfile]]] c; subst c;
    unfold workflow_runs, open_ab; rewrite Hfile; reflexivity.
Qed.

(** Any other exception of [pickle.load] leaves [workflow_runs] at once. *)
Lemma workflow_runs_unreadable (r : repo) (fuel : nat) (w : world)
    (e : exn) (rest : list chunk) :
  fs w !! store_path r = Some (Corrupt e :: rest) → e ≠ EOFError →
  workflow_runs http_get r fuel w = (Raise e, w).
Proof.
  intros Hfile He. unfold workflow_runs, open_ab. rewrite Hfile. cbn.
  unfold close. cbn. rewrite insert_insert_eq, insert_id by done.
  destruct w. by destruct e.
Qed.

(** Every way the store file can be found when it is opened. *)
Lemma store_file_cases (path : string) (w : world) :
  (∃ loaded rest, fs w !! path = Some (Pickled loaded :: rest)) ∨
  (fs w !! path = None ∨ fs w !! path = Some [] ∨
   ∃ rest, fs w !! path = Some (Corrupt EOFError :: rest)) ∨
  (∃ e rest, fs w !! path = Some (Corrupt e :: rest) ∧ e ≠ EOFError).
Proof.
  destruct (fs w !! path) as [[|[d|e] rest]|]; eauto 6.
  destruct (decide (e = EOFError)) as [->|He]; eauto 8.
Qed.

End Cache.

(** C2. When a fetched page has a run whose id the store already holds with
    status completed, the loop ends after that page, whether or not the page
    links to a next one: every run of the page is merged, the run met and
    those after it included, and no further page is requested. When this
    happens on the first page, [workflow_runs] returns and persists the
    loaded store with that page merged into it, after a single request. *)
Theorem sync_stops_after_known_completed_page
    (http_get : list event → string → exn + response) :
  (∀ fuel url v w res page,
     synced v = false →
     http_get (trace w ++ [EPrint "Fetching workflow runs ..."]) url = inr res →
     status_code res = 200%Z →
     json_key "workflow_runs" json_workflow_runs res = inr page →
     (∃ r stored, r ∈ page ∧ dict_get (run_id r) (data v) = Some stored ∧
                  status stored = "completed") →
     sync_loop http_get (S fuel) url v w =
       (Finished, foldl merge_run v page,
        World (fs w) (trace w ++ [EPrint "Fetching workflow runs ..."; EGet url])) ∧
     data (foldl merge_run v page) = merge_page (data v) page ∧
     (∀ r, r ∈ page → is_Some (dict_get (run_id r) (merge_page (data v) page)))) ∧
  (∀ r fuel w loaded rest res page,
     fs w !! store_path r = Some (Pickled loaded :: rest) →
     http_get (trace w ++ [EPrint "Fetching workflow runs ..."]) ASSET_BUILDS_URL
       = inr res →
     status_code res = 200%Z →
     json_key "workflow_runs" json_workflow_runs res = inr page →
     (∃ x stored, x ∈ page ∧ dict_get (run_id x) loaded = Some stored ∧
                  status stored = "completed") →
     ∃ added : nat,
       workflow_runs http_get r (S fuel) w =
         (Ret (merge_page loaded page),
          World (<[store_path r := [Pickled (merge_page loaded page)]]> (fs w))
                (trace w ++ [ EPrint "Fetching workflow runs ...";
                              EGet ASSET_BUILDS_URL;
                              EPrint ("Added/updated " +:+ pretty added
                                      +:+ " workflow run(s).") ]))).
Proof.
  assert (∀ fuel url v w res page,
     synced v = false →
     http_get (trace w ++ [EPrint "Fetching workflow runs ..."]) url = inr res →
     status_code res = 200%Z →
     json_key "workflow_runs" json_workflow_runs res = inr page →
     (∃ r stored, r ∈ page ∧ dict_get (run_id r) (data v) = Some stored ∧
                  status stored = "completed") →
     sync_loop http_get (S fuel) url v w =
       (Finished, foldl merge_run v page,
        World (fs w) (trace w ++ [EPrint "Fetching workflow runs ..."; EGet url])))
    as Hloop.
  { intros fuel url v w res page Hs Hget Hok Hjson Hhit.
    rewrite sync_loop_turn by done. cbn zeta. cbn [trace fs].
    rewrite Hget, bool_decide_eq_false_2, Hjson by (rewrite Hok; tauto).
    rewrite <- app_assoc. cbn [app].
    destruct (links_next res) as [next|]; [|done].
    apply sync_loop_synced. by apply synced_foldl_merge_run_hit. }
  split.
  - intros fuel url v w res page Hs Hget Hok Hjson Hhit. split_and!.
    + by eapply Hloop.
    + apply data_foldl_merge_run.
    + intros r Hr. rewrite dict_get_merge_page.
      assert (r ∈ filter (λ x, run_id x = run_id r) page) as Hin
        by (by apply list_elem_of_filter).
      destruct (filter _ page) as [|y l] using rev_ind.
      * by apply not_elem_of_nil in Hin.
      * rewrite last_snoc. by eexists.
  - intros r fuel w loaded rest res page Hfile Hget Hok Hjson Hhit.
    exists (new (foldl merge_run (SyncVars loaded 0 false) page)).
    rewrite (workflow_runs_loaded _ _ _ _ _ _ Hfile), sync_and_persist_spec.
    rewrite (Hloop fuel ASSET_BUILDS_URL (SyncVars loaded 0 false) w res page)
      by done.
    rewrite data_foldl_merge_run. cbn [data fs trace].
    by rewrite <- app_assoc.
Qed.

Lemma sync_stops_after_known_completed_page_witness :
  ∃ added : nat,
    workflow_runs Sample.two_pages (Sample.the_repo Sample.commit_A) 1
      (Sample.with_store [Pickled [(103%Z, Sample.R3_done); (102%Z, Sample.R2)]]) =
      (Ret [(103%Z, Sample.R3); (102%Z, Sample.R2)],
       World (<[Sample.store_file := [Pickled [(103%Z, Sample.R3); (102%Z, Sample.R2)]]]>
                {[ Sample.store_file :=
                     [Pickled [(103%Z, Sample.R3_done); (102%Z, Sample.R2)]] ]})
             ([] ++ [ EPrint "Fetching workflow runs ...";
                      EGet ASSET_BUILDS_URL;
                      EPrint ("Added/updated " +:+ pretty added
                              +:+ " workflow run(s).") ])).
Proof.
  apply (proj2 (sync_stops_after_known_completed_page Sample.two_pages)
               (Sample.the_repo Sample.commit_A) 0
               (Sample.with_store [Pickled [(103%Z, Sample.R3_done); (102%Z, Sample.R2)]])
               [(103%Z, Sample.R3_done); (102%Z, Sample.R2)] []
               (Sample.runs_page [Sample.R3] (Some Sample.page2_url))
               [Sample.R3]).
  - reflexivity.
  - reflexivity.
  - reflexivity.
  - reflexivity.
  - exists Sample.R3, Sample.R3_done.
    split_and!; [left | reflexivity | reflexivity].
Defined.

(** C8. Whatever the server answers, a sync removes no entry: a run id of
    the store found on disk is in the store that [workflow_runs] returns and
    in the store left on disk, when it returns and when it raises; while
    the loop has not ended nothing is written and the store on disk is the
    prior one. *)
Theorem workflow_runs_keeps_entries
    (http_get : list event → string → exn + response)
    (r : repo) (fuel : nat) (w : world) (prior : list (Z * run)) (k : Z) :
  persisted (store_path r) w = Some prior →
  is_Some (dict_get k prior) →
  match workflow_runs http_get r fuel w with
  | (Ret d, w') =>
      is_Some (dict_get k d) ∧ persisted (store_path r) w' = Some d
  | (Raise e, w') =>
      ∃ d, persisted (store_path r) w' = Some d ∧ is_Some (dict_get k d)
  | (Hang, w') => persisted (store_path r) w' = Some prior
  end.
Proof.
  intros Hprior Hk.
  assert (∃ rest, fs w !! store_path r = Some (Pickled prior :: rest))
    as [rest Hfile].
  { unfold persisted in Hprior.
    destruct (fs w !! store_path r) as [[|[d|e] rest]|]; try done.
    injection Hprior as ->. by eexists. }
  rewrite (workflow_runs_loaded _ _ _ _ _ _ Hfile), sync_and_persist_spec.
  pose proof (sync_loop_invariant http_get
                (λ v, is_Some (dict_get k (data v)))) as Hinv.
  specialize (Hinv (λ v x _ Hv, dict_set_keeps_keys k (run_id x) x (data v) Hv)
                   fuel ASSET_BUILDS_URL (SyncVars prior 0 false) w Hk).
  destruct (sync_loop_world http_get fuel ASSET_BUILDS_URL
              (SyncVars prior 0 false) w) as [post Hworld].
  destruct (sync_loop _ _ _ _ _) as [[exit v] w1]. cbn in Hinv, Hworld.
  destruct exit.
  - split; [done|]. unfold persisted. cbn. by rewrite lookup_insert_eq.
  - exists (data v). split; [|done].
    unfold persisted. cbn. by rewrite lookup_insert_eq.
  - subst w1. unfold persisted. cbn. by rewrite Hfile.
Qed.

Lemma workflow_runs_keeps_entries_witness :
  match workflow_runs Sample.two_pages (Sample.the_repo Sample.commit_A) 5
          (Sample.with_store [Pickled [(101%Z, Sample.R1)]]) with
  | (Ret d, w') =>
      is_Some (dict_get 101 d) ∧ persisted Sample.store_file w' = Some d
  | (Raise e, w') =>
      ∃ d, persisted Sample.store_file w' = Some d ∧ is_Some (dict_get 101 d)
  | (Hang, w') => persisted Sample.store_file w' = Some [(101%Z, Sample.R1)]
  end.
Proof.
  apply (workflow_runs_keeps_entries Sample.two_pages
           (Sample.the_repo Sample.commit_A) 5
           (Sample.with_store [Pickled [(101%Z, Sample.R1)]])
           [(101%Z, Sample.R1)] 101).
  - reflexivity.
  - by eexists.
Defined.

(** C7. However the loop ends, on its last page, on an early stop, on a
    response that is not a 200 or on an exception, the [finally] block
    replaces the whole content of the store file by the in-memory store as
    it stands at that point, updates of the pages merged so far included,
    and only then does [workflow_runs] return that store or let the
    exception through. A response that is not a 200 ends the loop without
    an exception. Every call of [workflow_runs] in which the load does not
    raise goes through this block. *)
Theorem workflow_runs_persists_on_every_exit
    (http_get : list event → string → exn + response) :
  (∀ fuel path f loaded w,
     let '(exit, v, w1) :=
       sync_loop http_get fuel ASSET_BUILDS_URL (SyncVars loaded 0 false) w in
     let '(result, w2) := sync_and_persist http_get fuel path f loaded w in
     match exit with
     | Finished =>
         result = Ret (data v) ∧ fs w2 !! path = Some [Pickled (data v)]
     | Raised e =>
         result = Raise e ∧ fs w2 !! path = Some [Pickled (data v)]
     | OutOfFuel => result = Hang
     end) ∧
  (∀ r fuel w,
     (∃ loaded rest,
        fs w !! store_path r = Some (Pickled loaded :: rest) ∧
        workflow_runs http_get r fuel w =
          sync_and_persist http_get fuel (store_path r)
            (File (Pickled loaded :: rest) 1) loaded w) ∨
     (let c := default [] (fs w !! store_path r) in
      workflow_runs http_get r fuel w =
        sync_and_persist http_get fuel (store_path r) (File c 0) []
          (print "Created workflow run database."
                 (World (<[store_path r := c]> (fs w)) (trace w)))) ∨
     (∃ e rest,
        fs w !! store_path r = Some (Corrupt e :: rest) ∧ e ≠ EOFError ∧
        workflow_runs http_get r fuel w = (Raise e, w))) ∧
  (∀ fuel url v w res,
     synced v = false →
     http_get (trace w ++ [EPrint "Fetching workflow runs ..."]) url = inr res →
     status_code res ≠ 200%Z →
     sync_loop http_get (S fuel) url v w =
       (Finished, v,
        World (fs w)
              (trace w ++ [ EPrint "Fetching workflow runs ...";
                            EGet url;
                            EPrint ("Unexpected response: "
                                    +:+ pretty (status_code res)
                                    +:+ " " +:+ text res) ]))) ∧
  (∀ fuel url v w res page next e,
     synced v = false →
     http_get (trace w ++ [EPrint "Fetching workflow runs ..."]) url = inr res →
     status_code res = 200%Z →
     json_key "workflow_runs" json_workflow_runs res = inr page →
     links_next res = Some next →
     synced (foldl merge_run v page) = false →
     http_get (trace w ++ [ EPrint "Fetching workflow runs ..."; EGet url;
                            EPrint "Fetching workflow runs ..." ]) next = inl e →
     sync_loop http_get (S (S fuel)) url v w =
       (Raised e, foldl merge_run v page,
        World (fs w)
              (trace w ++ [ EPrint "Fetching workflow runs ..."; EGet url;
                            EPrint "Fetching workflow runs ..."; EGet next ]))).
Proof.
  split_and!.
  - intros fuel path f loaded w.
    rewrite sync_and_persist_spec.
    destruct (sync_loop _ _ _ _ _) as [[exit v] w1].
    destruct exit; cbn; by rewrite ?lookup_insert_eq.
  - intros r fuel w.
    destruct (store_file_cases (store_path r) w)
      as [(loaded & rest & Hfile)|[Hfile|(e & rest & Hfile & He)]].
    + left. exists loaded, rest. split; [done|]. by apply workflow_runs_loaded.
    + right; left. by apply workflow_runs_created.
    + right; right. exists e, rest. split_and!; [done | done |].
      by eapply workflow_runs_unreadable.
  - intros fuel url v w res Hs Hget Hstatus.
    rewrite sync_loop_turn by done. cbn zeta. cbn [trace fs].
    rewrite Hget, bool_decide_eq_true_2 by done.
    unfold print. cbn [trace fs]. by rewrite <- !app_assoc.
  - intros fuel url v w res page next e Hs Hget Hok Hjson Hnext Hs' Hget'.
    rewrite sync_loop_turn by done. cbn zeta. cbn [trace fs].
    rewrite Hget, bool_decide_eq_false_2, Hjson, Hnext by (rewrite Hok; tauto).
    rewrite sync_loop_turn by done. cbn zeta. cbn [trace fs].
    rewrite <- !app_assoc. cbn [app]. rewrite Hget'.
    done.
Qed.

Lemma workflow_runs_persists_on_every_exit_witness :
  sync_loop Sample.drops_after_first 2 ASSET_BUILDS_URL
            (SyncVars [(101%Z, Sample.R1)] 0 false) Sample.fresh =
    (Raised ConnectionError,
     foldl merge_run (SyncVars [(101%Z, Sample.R1)] 0 false) [Sample.R3],
     World ∅ ([] ++ [ EPrint "Fetching workflow runs ..."; EGet ASSET_BUILDS_URL;
                      EPrint "Fetching workflow runs ...";
                      EGet Sample.page2_url ])) ∧
  sync_loop Sample.always_503 1 ASSET_BUILDS_URL
            (SyncVars [(101%Z, Sample.R1)] 0 false) Sample.fresh =
    (Finished, SyncVars [(101%Z, Sample.R1)] 0 false,
     World ∅ ([] ++ [ EPrint "Fetching workflow runs ..."; EGet ASSET_BUILDS_URL;
                      EPrint "Unexpected response: 503 Service Unavailable" ])).
Proof.
  split.
  - apply (proj2 (proj2 (proj2
             (workflow_runs_persists_on_every_exit Sample.drops_after_first)))
             0 ASSET_BUILDS_URL (SyncVars [(101%Z, Sample.R1)] 0 false)
             Sample.fresh (Sample.runs_page [Sample.R3] (Some Sample.page2_url))
             [Sample.R3] Sample.page2_url ConnectionError);
      reflexivity.
  - apply (proj1 (proj2 (proj2
             (workflow_runs_persists_on_every_exit Sample.always_503)))
             0 ASSET_BUILDS_URL (SyncVars [(101%Z, Sample.R1)] 0 false)
             Sample.fresh (Response 503 "Service Unavailable" None None)).
    + reflexivity.
    + reflexivity.
    + discriminate.
Defined.

(** The same on a whole call: the first page is merged, the second request
    fails, and the file holds the prior entry and the run of the first
    page when the exception leaves [workflow_runs]. *)
Example workflow_runs_keeps_partial_progress :
  workflow_runs Sample.drops_after_first (Sample.the_repo Sample.commit_A) 5
    (Sample.with_store [Pickled [(101%Z, Sample.R1)]; Corrupt UnpicklingError]) =
    (Raise ConnectionError,
     World {[ Sample.store_file :=
                [Pickled [(101%Z, Sample.R1); (103%Z, Sample.R3)]] ]}
           [ EPrint "Fetching workflow runs ..."; EGet ASSET_BUILDS_URL;
             EPrint "Fetching workflow runs ..."; EGet Sample.page2_url;
             EPrint "Added/updated 1 workflow run(s)." ]).
Proof. vm_compute. reflexivity. Qed.

(** C5, as stated, fails: the store holds run 101 as completed, the second
    page of the listing returns run 101 in progress, and the sync writes
    that copy over the completed entry, in memory and on disk. *)
Lemma completed_entry_overwritten :
  dict_get 101 [(101%Z, Sample.R1)] = Some Sample.R1 ∧
  status Sample.R1 = "completed" ∧
  Sample.R1_rerun ≠ Sample.R1 ∧
  workflow_runs Sample.two_pages (Sample.the_repo Sample.commit_A) 5
    (Sample.with_store [Pickled [(101%Z, Sample.R1)]]) =
    (Ret [(101%Z, Sample.R1_rerun); (103%Z, Sample.R3); (102%Z, Sample.R2)],
     World {[ Sample.store_file :=
                [Pickled [(101%Z, Sample.R1_rerun); (103%Z, Sample.R3);
                          (102%Z, Sample.R2)]] ]}
           [ EPrint "Fetching workflow runs ..."; EGet ASSET_BUILDS_URL;
             EPrint "Fetching workflow runs ..."; EGet Sample.page2_url;
             EPrint "Added/updated 2 workflow run(s)." ]).
Proof. split_and!; [done | done | discriminate | by vm_compute]. Qed.

(** C5, amended. Merging a page overwrites by run id whatever the stored
    status: each id of the page ends with the last copy the page has of it,
    every other id keeps its value. A stored entry that is completed and
    met on a fetched page is therefore replaced by the fetched copy, and the
    loop ends after that page. Over a whole sync an entry changes in no
    other way: a run id holds its prior value or a copy the listing
    delivered under that id. *)
Theorem sync_overwrites_by_run_id
    (http_get : list event → string → exn + response) :
  (∀ page d k,
     dict_get k (merge_page d page) =
       match last (filter (λ r, run_id r = k) page) with
       | Some r => Some r
       | None => dict_get k d
       end) ∧
  (∀ fuel url v w res page k stored fetched,
     synced v = false →
     http_get (trace w ++ [EPrint "Fetching workflow runs ..."]) url = inr res →
     status_code res = 200%Z →
     json_key "workflow_runs" json_workflow_runs res = inr page →
     dict_get k (data v) = Some stored → status stored = "completed" →
     last (filter (λ r, run_id r = k) page) = Some fetched →
     (sync_loop http_get (S fuel) url v w).1.1 = Finished ∧
     dict_get k (data (sync_loop http_get (S fuel) url v w).1.2) = Some fetched) ∧
  (∀ fuel url v w k,
     let v' := (sync_loop http_get fuel url v w).1.2 in
     dict_get k (data v') = dict_get k (data v) ∨
     ∃ r, dict_get k (data v') = Some r ∧ run_id r = k ∧ delivered http_get r).
Proof.
  split_and!.
  - apply dict_get_merge_page.
  - intros fuel url v w res page k stored fetched Hs Hget Hok Hjson Hk Hst Hlast.
    assert (fetched ∈ page ∧ run_id fetched = k) as [Hin Hid].
    { assert (fetched ∈ filter (λ r, run_id r = k) page) as Hf.
      { destruct (filter _ page) as [|y l _] using rev_ind; [done|].
        rewrite last_snoc in Hlast. injection Hlast as ->.
        apply elem_of_app. right. left. }
      apply list_elem_of_filter in Hf. tauto. }
    rewrite sync_loop_turn by done. cbn zeta. cbn [trace fs].
    rewrite Hget, bool_decide_eq_false_2, Hjson by (rewrite Hok; tauto).
    assert (synced (foldl merge_run v page) = true) as Hsynced.
    { apply synced_foldl_merge_run_hit. exists fetched, stored.
      by rewrite Hid. }
    assert (dict_get k (data (foldl merge_run v page)) = Some fetched) as Hval.
    { by rewrite data_foldl_merge_run, dict_get_merge_page, Hlast. }
    destruct (links_next res) as [next|]; [|done].
    by rewrite sync_loop_synced.
  - intros fuel url v w k.
    apply (sync_loop_invariant http_get
             (λ v', dict_get k (data v') = dict_get k (data v) ∨
                    ∃ r, dict_get k (data v') = Some r ∧ run_id r = k ∧
                         delivered http_get r)); [|by left].
    intros v0 x Hx Hv0. unfold merge_run; cbn [data]. rewrite dict_get_set.
    case_bool_decide as Hid; [|done].
    right. by exists x.
Qed.

Lemma sync_overwrites_by_run_id_witness :
  (sync_loop Sample.two_pages 1 Sample.page2_url
     (SyncVars [(101%Z, Sample.R1)] 0 false) Sample.fresh).1.1 = Finished ∧
  dict_get 101
    (data (sync_loop Sample.two_pages 1 Sample.page2_url
             (SyncVars [(101%Z, Sample.R1)] 0 false) Sample.fresh).1.2)
    = Some Sample.R1_rerun.
Proof.
  apply (proj1 (proj2 (sync_overwrites_by_run_id Sample.two_pages))
           0 Sample.page2_url (SyncVars [(101%Z, Sample.R1)] 0 false) Sample.fresh
           (Sample.runs_page [Sample.R1_rerun; Sample.R2]
              (Some (ASSET_BUILDS_URL +:+ "?page=3")))
           [Sample.R1_rerun; Sample.R2] 101%Z Sample.R1 Sample.R1_rerun);
    reflexivity.
Defined.

(** C6, as stated, fails: on a store file whose content does not unpickle,
    [pickle.load] raises an error that is not [EOFError] and it leaves
    [workflow_runs] before any request, the file being left as it was. *)
Lemma unreadable_store_raises :
  workflow_runs Sample.two_pages (Sample.the_repo Sample.commit_A) 5
    (Sample.with_store [Corrupt UnpicklingError]) =
    (Raise UnpicklingError, Sample.with_store [Corrupt UnpicklingError]).
Proof. by vm_compute. Qed.

(** C6, amended. When the store file is absent or empty, or its content
    makes [pickle.load] raise [EOFError], [workflow_runs] creates the file
    if need be, prints "Created workflow run database." and syncs from the
    empty store. Any other exception of [pickle.load] leaves
    [workflow_runs] at once: nothing is requested and the file is
    unchanged. *)
Theorem workflow_runs_opens_store
    (http_get : list event → string → exn + response)
    (r : repo) (fuel : nat) (w : world) :
  (fs w !! store_path r = None ∨ fs w !! store_path r = Some [] ∨
   (∃ rest, fs w !! store_path r = Some (Corrupt EOFError :: rest)) →
   let c := default [] (fs w !! store_path r) in
   workflow_runs http_get r fuel w =
     sync_and_persist http_get fuel (store_path r) (File c 0) []
       (print "Created workflow run database."
              (World (<[store_path r := c]> (fs w)) (trace w)))) ∧
  (∀ e rest,
     fs w !! store_path r = Some (Corrupt e :: rest) → e ≠ EOFError →
     workflow_runs http_get r fuel w = (Raise e, w)).
Proof.
  split.
  - apply workflow_runs_created.
  - intros e rest. apply workflow_runs_unreadable.
Qed.

Lemma workflow_runs_opens_store_witness :
  workflow_runs Sample.always_503 (Sample.the_repo Sample.commit_A) 5 Sample.fresh =
    sync_and_persist Sample.always_503 5 Sample.store_file (File [] 0) []
      (print "Created workflow run database."
             (World (<[Sample.store_file := []]> ∅) [])).
Proof.
  apply (proj1 (workflow_runs_opens_store Sample.always_503
                  (Sample.the_repo Sample.commit_A) 5 Sample.fresh)).
  left. reflexivity.
Defined.

(** ** The order of the steps of [main] *)

(** A call of [workflow_runs] that returns has requested the first page of
    the listing, with no request before it. *)
Lemma workflow_runs_fetches_first
    (http_get : list event → string → exn + response)
    (r : repo) (fuel : nat) (w w1 : world) (runs : list (Z * run)) :
  workflow_runs http_get r fuel w = (Ret runs, w1) →
  ∃ mid post,
    trace w1 = trace w ++ mid ++
               EPrint "Fetching workflow runs ..." :: EGet ASSET_BUILDS_URL :: post ∧
    no_network_call mid.
Proof.
  assert (∀ path f loaded w0 mid,
            trace w0 = trace w ++ mid → no_network_call mid →
            sync_and_persist http_get fuel path f loaded w0 = (Ret runs, w1) →
            ∃ mid post,
              trace w1 = trace w ++ mid ++
                EPrint "Fetching workflow runs ..." :: EGet ASSET_BUILDS_URL :: post ∧
              no_network_call mid) as Hpersist.
  { intros path f loaded w0 mid Htrace Hmid. rewrite sync_and_persist_spec.
    destruct (sync_loop _ _ _ _ _) as [[exit v] w'] eqn:Hloop.
    destruct exit; [|done|done]. intros [= _ <-].
    apply sync_loop_fetches_first in Hloop as (post & _ & Hpost); [|done|done].
    exists mid, (post ++ [EPrint ("Added/updated " +:+ pretty (new v)
                                  +:+ " workflow run(s).")]).
    split; [|done]. cbn [trace]. rewrite Hpost, Htrace.
    by rewrite <- !app_assoc. }
  destruct (store_file_cases (store_path r) w)
    as [(loaded & rest & Hfile)|[Hfile|(e & rest & Hfile & He)]].
  - rewrite (workflow_runs_loaded _ _ _ _ _ _ Hfile).
    apply (Hpersist _ _ _ _ []); [by rewrite app_nil_r | done].
  - rewrite (workflow_runs_created _ _ _ _ Hfile).
    by apply (Hpersist _ _ _ _ [EPrint "Created workflow run database."]).
  - by rewrite (workflow_runs_unreadable _ _ _ _ _ _ Hfile He).
Qed.

(** C1, as stated, fails: the head commit lacks [yarn.lock], and the three
    pages of the listing are requested before the missing path is noticed
    and the exit code 1 returned. *)
Lemma main_fetches_before_resolving :
  hash_files (tree Sample.commit_bare) ASSET_FILES = None ∧
  main Sample.two_pages Sample.quote_as_is Sample.session_exits_0
       Sample.token_env (Sample.the_repo Sample.commit_bare) 5 Sample.fresh =
    (Ret 1%Z,
     World {[ Sample.store_file :=
                [Pickled [(103%Z, Sample.R3); (101%Z, Sample.R1_rerun);
                          (102%Z, Sample.R2)]] ]}
           [ EPrint "Created workflow run database.";
             EPrint "Fetching workflow runs ..."; EGet ASSET_BUILDS_URL;
             EPrint "Fetching workflow runs ..."; EGet Sample.page2_url;
             EPrint "Fetching workflow runs ...";
             EGet (ASSET_BUILDS_URL +:+ "?page=3");
             EPrint "Unexpected response: 404 Not Found";
             EPrint "Added/updated 3 workflow run(s).";
             EPrint "Commit is missing asset file." ]) ∧
  ¬ no_network_call
      (trace (main Sample.two_pages Sample.quote_as_is Sample.session_exits_0
                Sample.token_env (Sample.the_repo Sample.commit_bare) 5
                Sample.fresh).2).
Proof. split_and!; [by vm_compute | by vm_compute | by vm_compute]. Qed.

(** C1, amended. With the credential set and a tracked path absent from the
    tree of the head commit, [main] first syncs the run cache and only then
    computes the identity of the head commit: if the sync returns, the
    first page of the listing has been requested, "Commit is missing asset
    file." is printed next and the exit code is 1, with no request, walk,
    selection or deploy after the sync; if the sync raises, its exception
    ends the process. *)
Theorem main_missing_asset_after_sync
    (http_get : list event → string → exn + response)
    (shlex_quote : string → string)
    (subprocess_call : list event → list string → Z)
    (environ : gmap string string) (r : repo) (fuel : nat) (w : world)
    (github_api_token : string) :
  environ !! "GITHUB_API_TOKEN" = Some github_api_token →
  hash_files (tree (head_commit r)) ASSET_FILES = None →
  match workflow_runs http_get r fuel w with
  | (Ret runs, w1) =>
      main http_get shlex_quote subprocess_call environ r fuel w =
        (Ret 1%Z, World (fs w1) (trace w1 ++ [EPrint "Commit is missing asset file."])) ∧
      ∃ mid post,
        trace w1 = trace w ++ mid ++
          EPrint "Fetching workflow runs ..." :: EGet ASSET_BUILDS_URL :: post ∧
        no_network_call mid
  | (Raise e, w1) =>
      main http_get shlex_quote subprocess_call environ r fuel w = (Raise e, w1)
  | (Hang, w1) =>
      main http_get shlex_quote subprocess_call environ r fuel w = (Hang, w1)
  end.
Proof.
  intros Htoken Hhash. unfold main. rewrite Htoken, Hhash.
  unfold mbind, action_bind.
  destruct (workflow_runs http_get r fuel w) as [[runs|e|] w1] eqn:Hsync;
    [|done|done].
  split; [done|]. by eapply workflow_runs_fetches_first.
Qed.

Lemma main_missing_asset_after_sync_witness :
  main Sample.always_503 Sample.quote_as_is Sample.session_exits_0
       Sample.token_env (Sample.the_repo Sample.commit_bare) 1 Sample.fresh =
    (Ret 1%Z,
     World {[ Sample.store_file := [Pickled []] ]}
           [ EPrint "Created workflow run database.";
             EPrint "Fetching workflow runs ..."; EGet ASSET_BUILDS_URL;
             EPrint "Unexpected response: 503 Service Unavailable";
             EPrint "Added/updated 0 workflow run(s).";
             EPrint "Commit is missing asset file." ]).
Proof.
  pose proof (main_missing_asset_after_sync Sample.always_503
                Sample.quote_as_is Sample.session_exits_0 Sample.token_env
                (Sample.the_repo Sample.commit_bare) 1 Sample.fresh "s3cr3t"
                eq_refl eq_refl) as Hmain.
  vm_compute in Hmain. destruct Hmain as [Hmain _].
  vm_compute. exact Hmain.
Defined.

(** * Further properties of the script *)

(** ** ContentHasher *)



(** X2. Two trees have the same identity exactly when they hold the same
    object at every tracked path: given the identity of one tree, another
    tree has it if and only if it agrees with the first on each path of
    [files]. *)
Theorem hash_files_equal_iff_agree
    (t1 t2 : gmap string string) (files h : list string) :
  hash_files t1 files = Some h →
  (hash_files t2 files = Some h ↔ ∀ path, path ∈ files → t2 !! path = t1 !! path).
Proof.
  unfold hash_files. revert h.
  induction files as [|p files IH]; intros h Hh.
  - split; [intros _ path Hin; by apply not_elem_of_nil in Hin | done].
  - cbn in Hh |- *.
    destruct (t1 !! p) as [s1|] eqn:H1; [|done]. cbn in Hh.
    destruct (mapM (λ path, t1 !! path) files) as [h1|] eqn:Hrest; [|done].
    cbn in Hh. injection Hh as <-.
    specialize (IH h1 eq_refl). split.
    + intros H2 path Hin.
      destruct (t2 !! p) as [s2|] eqn:H2p; [|done]. cbn in H2.
      destruct (mapM (λ path, t2 !! path) files) as [h2|] eqn:Hrest2; [|done].
      cbn in H2. injection H2 as -> ->.
      apply elem_of_cons in Hin as [->|Hin]; [congruence|].
      by apply IH.
    + intros Hagree.
      rewrite (Hagree p) by left. rewrite H1. cbn.
      rewrite (proj2 IH) by (intros path Hin; apply Hagree; by right).
      done.
Qed.

Lemma hash_files_equal_iff_agree_witness :
  hash_files (<["README.md" := "0000"]> (Sample.tree_with "u1")) ASSET_FILES
    = Some Sample.identity_u1 ↔
  ∀ path, path ∈ ASSET_FILES →
          <["README.md" := "0000"]> (Sample.tree_with "u1") !! path
            = Sample.tree_with "u1" !! path.
Proof.
  apply (hash_files_equal_iff_agree (Sample.tree_with "u1")
           (<["README.md" := "0000"]> (Sample.tree_with "u1"))
           ASSET_FILES Sample.identity_u1).
  vm_compute. reflexivity.
Defined.

(** X3. [hash_files] raises [KeyError] exactly when the tree lacks one of
    the paths, and otherwise returns one hexsha per path, in the order of
    [files]. *)
Theorem hash_files_missing_path (t : gmap string string) (files : list string) :
  (hash_files t files = None ↔ ∃ path, path ∈ files ∧ t !! path = None) ∧
  (∀ h, hash_files t files = Some h →
        length h = length files ∧
        ∀ i path, files !! i = Some path → t !! path = h !! i).
Proof.
  unfold hash_files. split.
  - rewrite mapM_None, Exists_exists. done.
  - intros h Hh. split; [symmetry; by eapply length_mapM|].
    apply mapM_Some in Hh. intros i path Hi.
    destruct (Forall2_lookup_l _ _ _ _ _ Hh Hi) as (sha & Hsha & Hlook).
    by rewrite Hsha.
Qed.

Lemma hash_files_missing_path_witness :
  hash_files (tree Sample.commit_bare) ASSET_FILES = None.
Proof.
  apply (proj1 (hash_files_missing_path (tree Sample.commit_bare) ASSET_FILES)).
  exists "yarn.lock". split; [|reflexivity].
  do 4 right. left.
Defined.

(** ** AncestryMatcher: which commits are emitted *)

(** Induction over a commit and the commits above it. *)
Lemma commit_ancestry_ind (P : commit → Prop) :
  (∀ sha t ps, Forall P ps → P (Commit sha t ps)) → ∀ c, P c.
Proof.
  intros Hstep. fix IH 1. intros [sha t ps]. apply Hstep.
  induction ps as [|p ps IHps]; constructor; [apply IH | apply IHps].
Qed.

Lemma elem_of_flat_map {A B} (f : A → list B) (l : list A) (y : B) :
  y ∈ flat_map f l ↔ ∃ x, x ∈ l ∧ y ∈ f x.
Proof.
  rewrite list_elem_of_In, in_flat_map.
  split; intros (x & Hx & Hy); exists x; split;
    first [by apply list_elem_of_In | by apply list_elem_of_In in Hx
          | by apply list_elem_of_In in Hy].
Qed.

(** X4. The walk emits exactly the commits that a chain of matching commits
    links to the start: a hexsha is yielded by [find_commits] if and only if
    it is that of a commit reached from the start through parent edges along
    which every commit, both ends included, has the wanted identity. A
    matching commit behind a commit that differs is never emitted. *)
Theorem find_commits_emits_matching_chains
    (files wanted_hash : list string) (c : commit) (sha : string) :
  sha ∈ find_commits c files wanted_hash ↔ matching_chain files wanted_hash c sha.
Proof.
  split.
  - revert sha. induction c as [csha t ps IH] using commit_ancestry_ind.
    intros sha. rewrite find_commits_step. case_bool_decide as Hmatch.
    + cbn [hexsha parents tree] in *.
      intros [->|Hin]%elem_of_cons.
      * by apply (chain_here files wanted_hash (Commit csha t ps)).
      * apply elem_of_flat_map in Hin as (p & Hp & Hsha).
        apply (chain_parent files wanted_hash (Commit csha t ps) p); [done..|].
        rewrite Forall_forall in IH. by apply IH.
    + intros Hin. by apply not_elem_of_nil in Hin.
  - induction 1 as [c Hc|c p sha Hc Hp _ IH].
    + rewrite find_commits_step, bool_decide_eq_true_2 by done. left.
    + rewrite find_commits_step, bool_decide_eq_true_2 by done. right.
      apply elem_of_flat_map. by exists p.
Qed.

(** ** RunCache: what a sync keeps *)

Lemma dict_get_None (k : Z) (d : list (Z * run)) :
  dict_get k d = None ↔ k ∉ d.*1.
Proof.
  induction d as [|[k0 v0] d IH]; cbn.
  - split; [intros _ Hin; by apply not_elem_of_nil in Hin | done].
  - rewrite not_elem_of_cons. case_bool_decide as Hk.
    + split; [done | intros [Hne _]; congruence].
    + rewrite IH. split; [by split; [congruence|] | tauto].
Qed.

Lemma dict_set_same (k : Z) (v : run) (d : list (Z * run)) :
  dict_get k d = Some v → dict_set k v d = d.
Proof.
  induction d as [|[k0 v0] d IH]; cbn; [done|].
  case_bool_decide as Hk.
  - intros [= ->]. by subst.
  - intros Hget. by rewrite IH.
Qed.

(** [d[k] = v] keeps the keys where they are and puts a new key last. *)
Lemma dict_set_keys (k : Z) (v : run) (d : list (Z * run)) :
  (dict_set k v d).*1 = if bool_decide (k ∈ d.*1) then d.*1 else d.*1 ++ [k].
Proof.
  induction d as [|[k0 v0] d IH]; cbn.
  - rewrite bool_decide_eq_false_2; [done | apply not_elem_of_nil].
  - destruct (decide (k0 = k)) as [->|Hne].
    + rewrite (bool_decide_eq_true_2 (k = k)) by done. cbn.
      rewrite bool_decide_eq_true_2; [done | left].
    + rewrite (bool_decide_eq_false_2 (k0 = k)) by done. cbn. rewrite IH.
      destruct (decide (k ∈ d.*1)) as [Hin|Hin].
      * rewrite !bool_decide_eq_true_2; [done | by right | done].
      * rewrite !bool_decide_eq_false_2; [done | | done].
        rewrite not_elem_of_cons. split; [congruence | done].
Qed.

Lemma dict_set_well_formed (r : run) (d : list (Z * run)) :
  well_formed_store d → well_formed_store (dict_set (run_id r) r d).
Proof.
  intros [Hnodup Hkeys]. split.
  - rewrite dict_set_keys. case_bool_decide as Hin; [done|].
    apply NoDup_app. split_and!; [done | | apply NoDup_singleton].
    intros x Hx [->|Hnil]%elem_of_cons; [done|].
    by apply not_elem_of_nil in Hnil.
  - clear Hnodup. induction d as [|[k0 v0] d IH]; cbn.
    + by repeat constructor.
    + inversion Hkeys as [|? ? Hk0 Hrest]; subst.
      case_bool_decide; constructor; auto.
Qed.

Section CacheInvariants.

Variable http_get : list event → string → exn + response.

(** Either [workflow_runs] starts the loop from the opening store, on a
    disk where only the store file may have been created, or the load
    raises and nothing happened. *)
Lemma workflow_runs_opening (r : repo) (fuel : nat) (w : world) :
  match opening_store (store_path r) w with
  | Some d0 =>
      ∃ f w0 greeting,
        fs w0 = <[store_path r := default [] (fs w !! store_path r)]> (fs w) ∧
        trace w0 = trace w ++ greeting ∧
        (greeting = [] ∨ greeting = [EPrint "Created workflow run database."]) ∧
        workflow_runs http_get r fuel w =
          sync_and_persist http_get fuel (store_path r) f d0 w0
  | None => ∃ e, e ≠ EOFError ∧ workflow_runs http_get r fuel w = (Raise e, w)
  end.
Proof.
  unfold opening_store.
  destruct (store_file_cases (store_path r) w)
    as [(loaded & rest & Hfile)|[Hfile|(e & rest & Hfile & He)]].
  - rewrite Hfile. eexists _, w, []. split_and!; [| | by left |].
    + cbn. by rewrite insert_id.
    + by rewrite app_nil_r.
    + by apply workflow_runs_loaded.
  - pose proof (workflow_runs_created http_get r fuel w Hfile) as Hrun.
    cbn zeta in Hrun.
    assert (match fs w !! store_path r with
            | None | Some [] => Some []
            | Some (Pickled d :: _) => Some d
            | Some (Corrupt e :: _) => if decide (e = EOFError) then Some [] else None
            end = Some ([] : list (Z * run))) as ->.
    { destruct Hfile as [->|[->|[rest ->]]]; [done | done |].
      by rewrite decide_True. }
    eexists _, _, [EPrint "Created workflow run database."].
    split_and!; [| | by right | exact Hrun]; done.
  - rewrite Hfile, decide_False by done. exists e. split; [done|].
    by eapply workflow_runs_unreadable.
Qed.

(** What the opening store has and every merge of a delivered run keeps,
    the returned store has, and so has the store on disk afterwards. *)
Lemma workflow_runs_store_invariant (I : list (Z * run) → Prop)
    (r : repo) (fuel : nat) (w : world) (d0 : list (Z * run)) :
  (∀ d x, delivered http_get x → I d → I (dict_set (run_id x) x d)) →
  opening_store (store_path r) w = Some d0 → I d0 →
  (∀ d, (workflow_runs http_get r fuel w).1 = Ret d → I d) ∧
  (∀ d, persisted (store_path r) (workflow_runs http_get r fuel w).2 = Some d → I d).
Proof.
  intros Hstep Hopen Hd0.
  pose proof (workflow_runs_opening r fuel w) as Hrun. rewrite Hopen in Hrun.
  destruct Hrun as (f & w0 & greeting & Hfs & _ & _ & ->).
  rewrite sync_and_persist_spec.
  pose proof (sync_loop_invariant http_get (λ v, I (data v))
                (λ v x Hx Hv, Hstep (data v) x Hx Hv)
                fuel ASSET_BUILDS_URL (SyncVars d0 0 false) w0 Hd0) as Hinv.
  destruct (sync_loop_world http_get fuel ASSET_BUILDS_URL
              (SyncVars d0 0 false) w0) as [post Hworld].
  destruct (sync_loop _ _ _ _ _) as [[exit v] w1]. cbn in Hinv, Hworld.
  destruct exit; cbn.
  - split; [by intros d [= <-]|].
    intros d. unfold persisted. cbn. rewrite lookup_insert_eq. by intros [= <-].
  - split; [done|].
    intros d. unfold persisted. cbn. rewrite lookup_insert_eq. by intros [= <-].
  - split; [done|]. subst w1.
    intros d. unfold persisted. cbn. rewrite Hfs, lookup_insert_eq.
    unfold opening_store in Hopen.
    destruct (fs w !! store_path r) as [[|[d'|e] rest]|]; cbn; try done.
    intros [= <-]. by injection Hopen as ->.
Qed.

End CacheInvariants.

(** X5. A sync against a listing that delivers only runs the store already
    holds, each under its id and identical, changes nothing: the store it
    returns and the store on disk afterwards are the opening store, so a
    second sync with no new remote activity yields the same store. *)
Theorem workflow_runs_idempotent
    (http_get : list event → string → exn + response)
    (r : repo) (fuel : nat) (w : world) (d0 : list (Z * run)) :
  opening_store (store_path r) w = Some d0 →
  (∀ x, delivered http_get x → dict_get (run_id x) d0 = Some x) →
  (∀ d, (workflow_runs http_get r fuel w).1 = Ret d → d = d0) ∧
  (∀ d, persisted (store_path r) (workflow_runs http_get r fuel w).2 = Some d →
        d = d0).
Proof.
  intros Hopen Hknown.
  apply (workflow_runs_store_invariant http_get (λ d, d = d0) _ _ _ d0);
    [|done..].
  intros d x Hx ->. by apply dict_set_same, Hknown.
Qed.

Lemma workflow_runs_idempotent_witness :
  (∀ d, (workflow_runs Sample.one_page (Sample.the_repo Sample.commit_A) 5
           (Sample.with_store [Pickled [(101%Z, Sample.R1); (102%Z, Sample.R2)]])).1
          = Ret d →
        d = [(101%Z, Sample.R1); (102%Z, Sample.R2)]) ∧
  (∀ d, persisted (store_path (Sample.the_repo Sample.commit_A))
          (workflow_runs Sample.one_page (Sample.the_repo Sample.commit_A) 5
             (Sample.with_store
                [Pickled [(101%Z, Sample.R1); (102%Z, Sample.R2)]])).2 = Some d →
        d = [(101%Z, Sample.R1); (102%Z, Sample.R2)]).
Proof.
  apply (workflow_runs_idempotent Sample.one_page
           (Sample.the_repo Sample.commit_A) 5
           (Sample.with_store [Pickled [(101%Z, Sample.R1); (102%Z, Sample.R2)]])
           [(101%Z, Sample.R1); (102%Z, Sample.R2)]).
  - reflexivity.
  - intros x (history & url & res & page & Hget & Hstatus & Hjson & Hin).
    unfold Sample.one_page in Hget. case_bool_decide.
    + injection Hget as <-. injection Hjson as <-.
      apply elem_of_cons in Hin as [->|Hin]; [reflexivity|].
      apply elem_of_cons in Hin as [->|Hin]; [reflexivity|].
      by apply not_elem_of_nil in Hin.
    + injection Hget as <-. discriminate Hstatus.
Defined.

(** X6. A sync keeps the store a dict of runs under their own ids: if the
    opening store has no key twice and every run under its [id], so have the
    store returned and the store left on disk. *)
Theorem workflow_runs_keeps_store_well_formed
    (http_get : list event → string → exn + response)
    (r : repo) (fuel : nat) (w : world) (d0 : list (Z * run)) :
  opening_store (store_path r) w = Some d0 →
  well_formed_store d0 →
  (∀ d, (workflow_runs http_get r fuel w).1 = Ret d → well_formed_store d) ∧
  (∀ d, persisted (store_path r) (workflow_runs http_get r fuel w).2 = Some d →
        well_formed_store d).
Proof.
  intros Hopen Hwf.
  apply (workflow_runs_store_invariant http_get well_formed_store _ _ _ d0);
    [|done..].
  intros d x _. apply dict_set_well_formed.
Qed.

Lemma workflow_runs_keeps_store_well_formed_witness :
  (∀ d, (workflow_runs Sample.two_pages (Sample.the_repo Sample.commit_A) 5
           (Sample.with_store [Pickled [(101%Z, Sample.R1)]])).1 = Ret d →
        well_formed_store d) ∧
  (∀ d, persisted (store_path (Sample.the_repo Sample.commit_A))
          (workflow_runs Sample.two_pages (Sample.the_repo Sample.commit_A) 5
             (Sample.with_store [Pickled [(101%Z, Sample.R1)]])).2 = Some d →
        well_formed_store d).
Proof.
  apply (workflow_runs_keeps_store_well_formed Sample.two_pages
           (Sample.the_repo Sample.commit_A) 5
           (Sample.with_store [Pickled [(101%Z, Sample.R1)]])
           [(101%Z, Sample.R1)]).
  - reflexivity.
  - split.
    + apply NoDup_singleton.
    + by repeat constructor.
Defined.

(** X7. A sync keeps the stored run ids in their order and puts the ids it
    sees for the first time after them: the keys of the opening store are a
    prefix of the keys of the store returned and of the store left on
    disk. *)
Theorem workflow_runs_keeps_order
    (http_get : list event → string → exn + response)
    (r : repo) (fuel : nat) (w : world) (d0 : list (Z * run)) :
  opening_store (store_path r) w = Some d0 →
  (∀ d, (workflow_runs http_get r fuel w).1 = Ret d →
        ∃ added, d.*1 = d0.*1 ++ added) ∧
  (∀ d, persisted (store_path r) (workflow_runs http_get r fuel w).2 = Some d →
        ∃ added, d.*1 = d0.*1 ++ added).
Proof.
  intros Hopen.
  apply (workflow_runs_store_invariant http_get
           (λ d, ∃ added, d.*1 = d0.*1 ++ added) _ _ _ d0); [|done|].
  - intros d x _ [added Hkeys]. rewrite dict_set_keys.
    case_bool_decide; [by exists added|].
    exists (added ++ [run_id x]). by rewrite Hkeys, app_assoc.
  - exists []. by rewrite app_nil_r.
Qed.

Lemma workflow_runs_keeps_order_witness :
  (∀ d, (workflow_runs Sample.two_pages (Sample.the_repo Sample.commit_A) 5
           (Sample.with_store [Pickled [(101%Z, Sample.R1)]])).1 = Ret d →
        ∃ added, d.*1 = [(101%Z, Sample.R1)].*1 ++ added) ∧
  (∀ d, persisted (store_path (Sample.the_repo Sample.commit_A))
          (workflow_runs Sample.two_pages (Sample.the_repo Sample.commit_A) 5
             (Sample.with_store [Pickled [(101%Z, Sample.R1)]])).2 = Some d →
        ∃ added, d.*1 = [(101%Z, Sample.R1)].*1 ++ added).
Proof.
  apply (workflow_runs_keeps_order Sample.two_pages
           (Sample.the_repo Sample.commit_A) 5
           (Sample.with_store [Pickled [(101%Z, Sample.R1)]])
           [(101%Z, Sample.R1)]).
  reflexivity.
Defined.

(** X8. The counter printed as "Added/updated N" never decreases in the
    loop and grows by at least the number of entries the loop adds to the
    store; the store never gets shorter. *)
Theorem sync_loop_counts_new_entries
    (http_get : list event → string → exn + response)
    (fuel : nat) (url : string) (v : sync_vars) (w : world) :
  let v' := (sync_loop http_get fuel url v w).1.2 in
  (new v ≤ new v')%nat ∧
  (length (data v) ≤ length (data v'))%nat ∧
  (length (data v') - length (data v) ≤ new v' - new v)%nat.
Proof.
  cbn zeta.
  cut ((new v ≤ new (sync_loop http_get fuel url v w).1.2)%nat ∧
       (length (data v)
          ≤ length (data (sync_loop http_get fuel url v w).1.2))%nat ∧
       (length (data (sync_loop http_get fuel url v w).1.2) + new v
          ≤ length (data v) + new (sync_loop http_get fuel url v w).1.2)%nat);
    [lia|].
  apply (sync_loop_invariant http_get
           (λ v', (new v ≤ new v')%nat ∧
                  (length (data v) ≤ length (data v'))%nat ∧
                  (length (data v') + new v ≤ length (data v) + new v')%nat));
    [|lia].
  intros v0 x _ (Hnew & Hlen & Hsum). unfold merge_run; cbn [data new].
  assert (length (dict_set (run_id x) x (data v0)) =
          if bool_decide (run_id x ∈ (data v0).*1) then length (data v0)
          else S (length (data v0))) as Hset.
  { rewrite <- (length_fmap fst (dict_set _ _ _)), dict_set_keys.
    case_bool_decide; rewrite ?length_app, length_fmap; cbn; lia. }
  rewrite Hset.
  destruct (dict_get (run_id x) (data v0)) as [stored|] eqn:Hget.
  - rewrite (bool_decide_eq_true_2 (run_id x ∈ (data v0).*1))
      by (apply dec_stable; intros Hn; apply dict_get_None in Hn; congruence).
    destruct (bool_decide (status stored = "completed")); lia.
  - apply dict_get_None in Hget.
    rewrite (bool_decide_eq_false_2 (run_id x ∈ (data v0).*1)) by done. lia.
Qed.

(** X9. What a sync returns is what the next one loads: when
    [workflow_runs] returns a store, the file holds that store and nothing
    else, and a later call, whatever the server then answers, starts its
    loop from that store. *)
Theorem workflow_runs_round_trip
    (http_get : list event → string → exn + response)
    (r : repo) (fuel : nat) (w w' : world) (d : list (Z * run)) :
  workflow_runs http_get r fuel w = (Ret d, w') →
  fs w' !! store_path r = Some [Pickled d] ∧
  opening_store (store_path r) w' = Some d ∧
  ∀ http_get' fuel',
    workflow_runs http_get' r fuel' w' =
      sync_and_persist http_get' fuel' (store_path r) (File [Pickled d] 1) d w'.
Proof.
  intros Hrun.
  assert (fs w' !! store_path r = Some [Pickled d]) as Hfile.
  { pose proof (workflow_runs_opening http_get r fuel w) as Hopen.
    destruct (opening_store (store_path r) w) as [d0|].
    - destruct Hopen as (f & w0 & greeting & _ & _ & _ & Heq).
      rewrite Heq, sync_and_persist_spec in Hrun.
      destruct (sync_loop _ _ _ _ _) as [[exit v] w1].
      destruct exit; [|done|done].
      injection Hrun as <- <-. cbn. by rewrite lookup_insert_eq.
    - destruct Hopen as (e & _ & Heq). by rewrite Heq in Hrun. }
  split_and!; [done | |].
  - unfold opening_store. by rewrite Hfile.
  - intros http_get' fuel'. by apply workflow_runs_loaded.
Qed.

Lemma workflow_runs_round_trip_witness :
  fs (workflow_runs Sample.one_page (Sample.the_repo Sample.commit_A) 5
        Sample.fresh).2 !! store_path (Sample.the_repo Sample.commit_A)
    = Some [Pickled [(101%Z, Sample.R1); (102%Z, Sample.R2)]].
Proof.
  apply (workflow_runs_round_trip Sample.one_page
           (Sample.the_repo Sample.commit_A) 5 Sample.fresh
           (workflow_runs Sample.one_page (Sample.the_repo Sample.commit_A) 5
              Sample.fresh).2
           [(101%Z, Sample.R1); (102%Z, Sample.R2)]).
  vm_compute. reflexivity.
Defined.

(** X10. The loop has no bound of its own: on a listing whose page links to
    itself and holds only unfinished runs, none of them stored as
    completed, every turn requests the same page again and the loop never
    ends; when that page is the first of the listing, [workflow_runs]
    never returns. *)
Theorem sync_loop_self_link_never_ends
    (http_get : list event → string → exn + response)
    (url : string) (res : response) (page : list run) (d0 : list (Z * run)) :
  (∀ history, http_get history url = inr res) →
  status_code res = 200%Z →
  json_key "workflow_runs" json_workflow_runs res = inr page →
  links_next res = Some url →
  Forall (λ x, status x ≠ "completed") page →
  (∀ x stored, x ∈ page → dict_get (run_id x) d0 = Some stored →
               status stored ≠ "completed") →
  (∀ fuel count w,
     (sync_loop http_get fuel url (SyncVars d0 count false) w).1.1 = OutOfFuel) ∧
  (url = ASSET_BUILDS_URL →
   ∀ r fuel w, opening_store (store_path r) w = Some d0 →
               (workflow_runs http_get r fuel w).1 = Hang).
Proof.
  intros Hget Hok Hjson Hnext Hpage Hstored0.
  set (J := λ v : sync_vars,
         synced v = false ∧
         ∀ x stored, x ∈ page → dict_get (run_id x) (data v) = Some stored →
                     status stored ≠ "completed").
  assert (∀ l v, Forall (λ y, y ∈ page) l → J v → J (foldl merge_run v l))
    as Hmerge.
  { induction l as [|y l IH]; intros v0 Hl Hv0; [done|].
    inversion Hl as [|? ? Hy Hl']; subst. cbn [foldl]. apply IH; [done|].
    destruct Hv0 as [Hs Hstored]. unfold merge_run. split; cbn [synced data].
    - destruct (dict_get (run_id y) (data v0)) as [stored|] eqn:Hy0; [|done].
      by rewrite bool_decide_eq_false_2 by (by eapply Hstored).
    - intros x stored Hx. rewrite dict_get_set. case_bool_decide.
      + intros [= <-]. rewrite Forall_forall in Hpage. by apply Hpage.
      + by apply Hstored. }
  assert (∀ fuel v w, J v → (sync_loop http_get fuel url v w).1.1 = OutOfFuel)
    as Hloop.
  { induction fuel as [|fuel IH]; intros v w [Hs Hstored].
    - cbn. by rewrite Hs.
    - rewrite sync_loop_turn by done. cbn zeta.
      rewrite Hget, bool_decide_eq_false_2, Hjson, Hnext by (rewrite Hok; tauto).
      apply IH, Hmerge; [|done]. by apply Forall_forall. }
  split.
  - intros fuel count w. by apply Hloop.
  - intros -> r fuel w Hopen.
    pose proof (workflow_runs_opening http_get r fuel w) as Hrun.
    rewrite Hopen in Hrun. destruct Hrun as (f & w0 & greeting & _ & _ & _ & ->).
    rewrite sync_and_persist_spec.
    pose proof (Hloop fuel (SyncVars d0 0 false) w0 (conj eq_refl Hstored0))
      as Hexit.
    destruct (sync_loop _ _ _ _ _) as [[exit v] w1]. cbn in Hexit. by subst exit.
Qed.

Lemma sync_loop_self_link_never_ends_witness :
  (∀ fuel count w,
     (sync_loop Sample.page_loops fuel ASSET_BUILDS_URL
        (SyncVars [(102%Z, Sample.R2)] count false) w).1.1 = OutOfFuel) ∧
  (ASSET_BUILDS_URL = ASSET_BUILDS_URL →
   ∀ r fuel w, opening_store (store_path r) w = Some [(102%Z, Sample.R2)] →
               (workflow_runs Sample.page_loops r fuel w).1 = Hang).
Proof.
  apply (sync_loop_self_link_never_ends Sample.page_loops ASSET_BUILDS_URL
           (Sample.runs_page [Sample.R1_rerun; Sample.R3] (Some ASSET_BUILDS_URL))
           [Sample.R1_rerun; Sample.R3] [(102%Z, Sample.R2)]).
  - reflexivity.
  - reflexivity.
  - reflexivity.
  - reflexivity.
  - repeat constructor; discriminate.
  - intros x stored Hx.
    apply elem_of_cons in Hx as [->|Hx]; [discriminate|].
    apply elem_of_cons in Hx as [->|Hx]; [discriminate|].
    by apply not_elem_of_nil in Hx.
Defined.




(** ** RunSelector and ArtifactLocator: edge behaviour *)

(** X12. First found wins: once a store selects a run, entries that come
    after it in iteration order never displace it, whatever they are. *)
Theorem find_workflow_run_prefers_earlier
    (runs more : list (Z * run)) (wanted_commits : gset string)
    (w w2 : world) (r : run) :
  (find_workflow_run runs wanted_commits w).1 = Ret r →
  (find_workflow_run (runs ++ more) wanted_commits w2).1 = Ret r.
Proof.
  rewrite !find_workflow_run_spec. unfold select_spec, dict_values.
  rewrite fmap_app, filter_app.
  destruct (filter _ runs.*2) as [|x l]; [done|].
  cbn. by intros [= ->].
Qed.

Lemma find_workflow_run_prefers_earlier_witness :
  (find_workflow_run ([(101%Z, Sample.R1); (102%Z, Sample.R2)]
                      ++ [(103%Z, Sample.R3_done)])
                     {["aaaa"; "bbbb"; "eeee"]} Sample.fresh).1 = Ret Sample.R2.
Proof.
  apply (find_workflow_run_prefers_earlier
           [(101%Z, Sample.R1); (102%Z, Sample.R2)] [(103%Z, Sample.R3_done)]
           {["aaaa"; "bbbb"; "eeee"]} Sample.fresh Sample.fresh Sample.R2).
  vm_compute. reflexivity.
Defined.

(** X13. [artifact_url] makes one request and does not look at the status
    of the response: an exception of the request, a body that does not
    decode and a body without the ["artifacts"] key each leave it as that
    exception, and a response that is not a 200 but carries a listing is
    searched like any other. *)
Theorem artifact_url_failures
    (http_get : list event → string → exn + response)
    (r : run) (name : string) (w : world) :
  let listed := World (fs w) (trace w ++ [EGet (artifacts_url r)]) in
  (∀ e, http_get (trace w) (artifacts_url r) = inl e →
        artifact_url http_get r name w = (Raise e, listed)) ∧
  (∀ res, http_get (trace w) (artifacts_url r) = inr res → json res = None →
          artifact_url http_get r name w = (Raise JSONDecodeError, listed)) ∧
  (∀ res body, http_get (trace w) (artifacts_url r) = inr res →
               json res = Some body → json_artifacts body = None →
               artifact_url http_get r name w
                 = (Raise (KeyError "artifacts"), listed)) ∧
  (∀ res body artifacts a,
     http_get (trace w) (artifacts_url r) = inr res →
     status_code res ≠ 200%Z →
     json res = Some body → json_artifacts body = Some (a :: artifacts) →
     artifact_name a = name → artifact_expired a = false →
     artifact_url http_get r name w = (Ret (archive_download_url a), listed)).
Proof.
  cbn zeta. unfold artifact_url, session_get, json_key. split_and!.
  - by intros e ->.
  - by intros res -> ->.
  - by intros res body -> -> ->.
  - intros res body artifacts a -> _ -> -> Hname Hfresh. cbn.
    by rewrite bool_decide_eq_true_2, Hfresh.
Qed.

Lemma artifact_url_failures_witness :
  artifact_url Sample.one_page Sample.R2 "lila-assets" Sample.fresh =
    (Ret "https://api.github.com/artifacts/9/zip",
     World ∅ ([] ++ [EGet "https://api.github.com/runs/102/artifacts"])).
Proof.
  apply (proj2 (proj2 (proj2
           (artifact_url_failures Sample.one_page Sample.R2 "lila-assets"
              Sample.fresh)))
           (Response 404 "Not Found"
              (Some (JsonBody None
                 (Some [ Artifact "lila-assets" false
                           "https://api.github.com/artifacts/9/zip" ])))
              None)
           (JsonBody None
              (Some [ Artifact "lila-assets" false
                        "https://api.github.com/artifacts/9/zip" ]))
           []
           (Artifact "lila-assets" false "https://api.github.com/artifacts/9/zip"));
    first [reflexivity | discriminate].
Defined.

(** ** [main]: what happens before a deploy *)

Lemma quiet_refl (path : string) (w : world) : quiet path w w.
Proof. exists []. by rewrite app_nil_r. Qed.

Lemma quiet_trans (path : string) (w1 w2 w3 : world) :
  quiet path w1 w2 → quiet path w2 w3 → quiet path w1 w3.
Proof.
  intros (p1 & Ht1 & Hc1 & Hf1) (p2 & Ht2 & Hc2 & Hf2).
  exists (p1 ++ p2). split_and!.
  - by rewrite Ht2, Ht1, app_assoc.
  - by apply Forall_app.
  - intros p Hp. by rewrite Hf2, Hf1.
Qed.

(** Appending events that are not calls, the disk left alone. *)
Lemma quiet_append (path : string) (w : world) (post : list event) :
  Forall (λ e, is_call e = false) post →
  quiet path w (World (fs w) (trace w ++ post)).
Proof. intros Hpost. by exists post. Qed.

Lemma quiet_print (path line : string) (w : world) : quiet path w (print line w).
Proof. apply quiet_append. by repeat constructor. Qed.

Section Quiet.

Variable http_get : list event → string → exn + response.

Lemma sync_loop_quiet (path : string) (fuel : nat) (url : string)
    (v : sync_vars) (w : world) :
  quiet path w (sync_loop http_get fuel url v w).2.
Proof.
  revert url v w. induction fuel as [|fuel IH]; intros url v w.
  - cbn. destruct (synced v); apply quiet_refl.
  - destruct (synced v) eqn:Hs.
    { rewrite sync_loop_synced by done. apply quiet_refl. }
    rewrite sync_loop_turn by done. cbn zeta. cbn [trace fs].
    assert (quiet path w
              (World (fs w) ((trace w ++ [EPrint "Fetching workflow runs ..."])
                             ++ [EGet url]))) as Hturn.
    { rewrite <- app_assoc. apply quiet_append. by repeat constructor. }
    destruct (http_get _ url) as [e|res]; [done|].
    case_bool_decide.
    { eapply quiet_trans; [exact Hturn | apply quiet_print]. }
    destruct (json_key _ _ res) as [e|page]; [done|].
    destruct (links_next res) as [next|]; [|done].
    eapply quiet_trans; [exact Hturn | apply IH].
Qed.

Lemma workflow_runs_quiet (r : repo) (fuel : nat) (w : world) :
  quiet (store_path r) w (workflow_runs http_get r fuel w).2.
Proof.
  pose proof (workflow_runs_opening http_get r fuel w) as Hrun.
  destruct (opening_store (store_path r) w) as [d0|].
  - destruct Hrun as (f & w0 & greeting & Hfs & Htrace & Hgreeting & ->).
    assert (quiet (store_path r) w w0) as Hopen.
    { exists greeting. split_and!; [done | |].
      - destruct Hgreeting as [->| ->]; by repeat constructor.
      - intros p Hp. by rewrite Hfs, lookup_insert_ne. }
    rewrite sync_and_persist_spec.
    pose proof (sync_loop_quiet (store_path r) fuel ASSET_BUILDS_URL
                  (SyncVars d0 0 false) w0) as Hloop.
    destruct (sync_loop _ _ _ _ _) as [[exit v] w1]. cbn [snd] in Hloop.
    assert (quiet (store_path r) w1
              (World (<[store_path r := [Pickled (data v)]]> (fs w1))
                     (trace w1 ++ [EPrint ("Added/updated " +:+ pretty (new v)
                                           +:+ " workflow run(s).")]))) as Hsave.
    { eexists. split_and!; [done | by repeat constructor |].
      intros p Hp. cbn. by rewrite lookup_insert_ne. }
    pose proof (quiet_trans _ _ _ _ Hopen Hloop) as Hended.
    destruct exit; cbn [snd];
      [by eapply quiet_trans | by eapply quiet_trans | done].
  - destruct Hrun as (e & _ & ->). apply quiet_refl.
Qed.

Lemma find_workflow_run_quiet (path : string) (runs : list (Z * run))
    (wanted_commits : gset string) (w : world) :
  quiet path w (find_workflow_run runs wanted_commits w).2.
Proof.
  rewrite find_workflow_run_spec. cbn zeta.
  assert (Forall (λ e, is_call e = false)
            (report_line <$> filter (qualifies wanted_commits) (dict_values runs)))
    as Hreports.
  { apply Forall_fmap, Forall_forall. by intros x _. }
  destruct (select_spec runs wanted_commits) as [r|]; cbn [snd];
    apply quiet_append.
  - constructor; [done|]. apply Forall_app. split; [done | by repeat constructor].
  - by constructor.
Qed.

Lemma find_workflow_run_returns (runs : list (Z * run))
    (wanted_commits : gset string) (w : world) (r : run) :
  (find_workflow_run runs wanted_commits w).1 = Ret r →
  r ∈ dict_values runs ∧ head_commit_id r ∈ wanted_commits ∧
  status r = "completed" ∧ conclusion r = Some "success".
Proof.
  rewrite find_workflow_run_spec.
  destruct (select_spec runs wanted_commits) as [r'|] eqn:Hsel; [|done].
  cbn. intros [= ->].
  apply head_filter_first in Hsel
    as (before & after & Hsplit & (Hq & Hs & Hc) & _).
  split_and!; [|done..]. rewrite Hsplit. apply elem_of_app. right. left.
Qed.

Lemma artifact_url_quiet (path : string) (r : run) (name : string) (w : world) :
  quiet path w (artifact_url http_get r name w).2.
Proof.
  unfold artifact_url, session_get.
  assert (quiet path w (World (fs w) (trace w ++ [EGet (artifacts_url r)])))
    as Hget by (apply quiet_append; by repeat constructor).
  destruct (http_get (trace w) (artifacts_url r)) as [e|res]; [done|].
  destruct (json_key _ _ res) as [e|artifacts]; [done|].
  rewrite scan_artifacts_spec.
  destruct (head (filter _ artifacts)) as [a|]; [|done]. cbn [snd].
  destruct (artifact_expired a); [|done].
  eapply quiet_trans; [exact Hget | apply quiet_print].
Qed.

End Quiet.

(** Either [main] ends without a subprocess call, or every step before the
    deploy succeeded and the call is its last event. *)
Lemma main_effects
    (http_get : list event → string → exn + response)
    (shlex_quote : string → string)
    (subprocess_call : list event → list string → Z)
    (environ : gmap string string) (r : repo) (fuel : nat) (w : world) :
  quiet (store_path r) w
        (main http_get shlex_quote subprocess_call environ r fuel w).2 ∨
  ∃ tok runs wanted_hash found url w3 w4,
    environ !! "GITHUB_API_TOKEN" = Some tok ∧
    (workflow_runs http_get r fuel w).1 = Ret runs ∧
    hash_files (tree (head_commit r)) ASSET_FILES = Some wanted_hash ∧
    found ∈ dict_values runs ∧
    head_commit_id found ∈
      (list_to_set (find_commits (head_commit r) ASSET_FILES wanted_hash)
         : gset string) ∧
    status found = "completed" ∧ conclusion found = Some "success" ∧
    (artifact_url http_get found "lila-assets" w3).1 = Ret url ∧
    quiet (store_path r) w w4 ∧
    main http_get shlex_quote subprocess_call environ r fuel w =
      (Ret (subprocess_call (trace w4)
              (ssh_argv shlex_quote ("token " +:+ tok) found url)),
       World (fs w4)
             (trace w4 ++ [ECall (ssh_argv shlex_quote ("token " +:+ tok)
                                    found url)])).
Proof.
  unfold main. destruct (environ !! "GITHUB_API_TOKEN") as [tok|] eqn:Htok.
  2:{ left. apply quiet_print. }
  unfold mbind, action_bind, say, mret, action_ret.
  pose proof (workflow_runs_quiet http_get r fuel w) as Hsync.
  destruct (workflow_runs http_get r fuel w) as [[runs|e|] w1] eqn:Hruns;
    cbn [snd] in Hsync; [|by left|by left].
  destruct (hash_files (tree (head_commit r)) ASSET_FILES) as [wanted_hash|]
    eqn:Hhash.
  2:{ left. cbn [snd]. eapply quiet_trans; [exact Hsync | apply quiet_print]. }
  set (wanted_commits :=
         list_to_set (find_commits (head_commit r) ASSET_FILES wanted_hash)
           : gset string).
  set (w2 := print ("Found " +:+ pretty (size wanted_commits)
                    +:+ " matching commits.") w1).
  assert (quiet (store_path r) w w2) as Hfound
    by (eapply quiet_trans; [exact Hsync | apply quiet_print]).
  pose proof (find_workflow_run_quiet (store_path r) runs wanted_commits w2)
    as Hselect.
  pose proof (find_workflow_run_returns runs wanted_commits w2) as Hrun.
  destruct (find_workflow_run runs wanted_commits w2) as [[found|e|] w3]
    eqn:Hfind; cbn [fst snd] in Hselect, Hrun.
  2,3: left; cbn [snd]; by eapply quiet_trans.
  specialize (Hrun found eq_refl) as (Hin & Hq & Hs & Hc).
  pose proof (artifact_url_quiet http_get (store_path r) found "lila-assets" w3)
    as Hlocate.
  destruct (artifact_url http_get found "lila-assets" w3) as [[url|e|] w4]
    eqn:Hart; cbn [snd] in Hlocate.
  2,3: left; cbn [snd]; eapply quiet_trans; [exact Hfound|];
       by eapply quiet_trans.
  right.
  exists tok, runs, wanted_hash, found, url, w3,
    (World (fs w4)
       ((trace w4 ++ [EPrint ("Deploying " +:+ url +:+ " to khiaw ...")])
        ++ [ESleep 1])).
  split_and!; try done.
  - by rewrite Hart.
  - eapply quiet_trans; [exact Hfound|].
    eapply quiet_trans; [exact Hselect|].
    eapply quiet_trans; [exact Hlocate|].
    rewrite <- app_assoc. apply quiet_append. by repeat constructor.
Qed.

(** Without [GITHUB_API_TOKEN] in the environment [main] prints how to
    get one and returns 128: nothing is requested, no file is opened or
    created, and no subprocess runs. *)
Theorem main_without_token
    (http_get : list event → string → exn + response)
    (shlex_quote : string → string)
    (subprocess_call : list event → list string → Z)
    (environ : gmap string string) (r : repo) (fuel : nat) (w : world) :
  environ !! "GITHUB_API_TOKEN" = None →
  main http_get shlex_quote subprocess_call environ r fuel w =
    (Ret 128%Z,
     World (fs w)
           (trace w ++
            [EPrint ("Need environment variable GITHUB_API_TOKEN. "
                    +:+ "See https://github.com/settings/tokens/new. "
                    +:+ "Scope public_repo.")])).
Proof. intros Htoken. unfold main. by rewrite Htoken. Qed.

Lemma main_without_token_witness :
  main Sample.two_pages Sample.quote_as_is Sample.session_exits_0
       ∅ (Sample.the_repo Sample.commit_A) 5 Sample.fresh =
    (Ret 128%Z,
     World (fs Sample.fresh)
           (trace Sample.fresh ++
            [EPrint ("Need environment variable GITHUB_API_TOKEN. "
                    +:+ "See https://github.com/settings/tokens/new. "
                    +:+ "Scope public_repo.")])).
Proof.
  apply (main_without_token Sample.two_pages Sample.quote_as_is
           Sample.session_exits_0 ∅ (Sample.the_repo Sample.commit_A) 5
           Sample.fresh).
  reflexivity.
Defined.

(** X14. [main] starts the remote session at most once, as the last thing
    it does, and only for a run that is in the synced store, whose head
    commit is one of the commits matching the head's tracked content, whose
    status is completed and conclusion success, and for which
    [artifact_url] returned a URL; the exit code is then the one of the
    session. In every other case no subprocess is started. *)
Theorem main_deploys_only_resolved_run
    (http_get : list event → string → exn + response)
    (shlex_quote : string → string)
    (subprocess_call : list event → list string → Z)
    (environ : gmap string string) (r : repo) (fuel : nat) (w : world) :
  let out := main http_get shlex_quote subprocess_call environ r fuel w in
  ∃ post,
    trace out.2 = trace w ++ post ∧
    (Forall (λ e, is_call e = false) post ∨
     ∃ tok runs wanted_hash found url w3 before,
       environ !! "GITHUB_API_TOKEN" = Some tok ∧
       (workflow_runs http_get r fuel w).1 = Ret runs ∧
       hash_files (tree (head_commit r)) ASSET_FILES = Some wanted_hash ∧
       found ∈ dict_values runs ∧
       head_commit_id found ∈
         (list_to_set (find_commits (head_commit r) ASSET_FILES wanted_hash)
            : gset string) ∧
       status found = "completed" ∧ conclusion found = Some "success" ∧
       (artifact_url http_get found "lila-assets" w3).1 = Ret url ∧
       Forall (λ e, is_call e = false) before ∧
       post = before ++ [ECall (ssh_argv shlex_quote ("token " +:+ tok)
                                  found url)] ∧
       out.1 = Ret (subprocess_call (trace w ++ before)
                      (ssh_argv shlex_quote ("token " +:+ tok) found url))).
Proof.
  cbn zeta.
  destruct (main_effects http_get shlex_quote subprocess_call environ r fuel w)
    as [(post & Htrace & Hquiet & _)
       |(tok & runs & wanted_hash & found & url & w3 & w4 & Htok & Hruns & Hhash
         & Hin & Hq & Hs & Hc & Hart & (before & Htrace & Hquiet & _) & ->)].
  - exists post. split; [done | by left].
  - exists (before ++ [ECall (ssh_argv shlex_quote ("token " +:+ tok) found url)]).
    cbn [fst snd trace]. rewrite Htrace. split; [by rewrite app_assoc|].
    right. by exists tok, runs, wanted_hash, found, url, w3, before.
Qed.

(** A deploy does happen: on the sample listing the head commit A matches
    itself and B, run 101 for A failed, run 102 for B succeeded and is
    deployed, and the exit code is that of the session. *)
Example main_deploys_sample :
  main Sample.one_page Sample.quote_as_is Sample.session_exits_0
       Sample.token_env (Sample.the_repo Sample.commit_A) 5 Sample.fresh =
    (Ret 0%Z,
     World {[ Sample.store_file :=
                [Pickled [(101%Z, Sample.R1); (102%Z, Sample.R2)]] ]}
           [ EPrint "Created workflow run database.";
             EPrint "Fetching workflow runs ..."; EGet ASSET_BUILDS_URL;
             EPrint "Added/updated 2 workflow run(s).";
             EPrint "Found 2 matching commits.";
             EPrint "Matching workflow runs:";
             EPrint "- https://github.com/runs/101 failed.";
             EPrint "- https://github.com/runs/102 succeeded.";
             EPrint "Selected https://github.com/runs/102.";
             EGet "https://api.github.com/runs/102/artifacts";
             EPrint "Deploying https://api.github.com/artifacts/9/zip to khiaw ...";
             ESleep 1;
             ECall (ssh_argv Sample.quote_as_is "token s3cr3t" Sample.R2
                      "https://api.github.com/artifacts/9/zip") ]).
Proof. by vm_compute. Qed.

(** X15. The only file [main] creates or writes is the run store beside
    the repository: every other path of the disk holds afterwards what it
    held before, however [main] ends. *)
Theorem main_writes_only_the_store
    (http_get : list event → string → exn + response)
    (shlex_quote : string → string)
    (subprocess_call : list event → list string → Z)
    (environ : gmap string string) (r : repo) (fuel : nat) (w : world)
    (path : string) :
  path ≠ store_path r →
  fs (main http_get shlex_quote subprocess_call environ r fuel w).2 !! path
    = fs w !! path.
Proof.
  intros Hpath.
  destruct (main_effects http_get shlex_quote subprocess_call environ r fuel w)
    as [(post & _ & _ & Hfs)
       |(tok & runs & wanted_hash & found & url & w3 & w4 & _ & _ & _
         & _ & _ & _ & _ & _ & (before & _ & _ & Hfs) & ->)].
  - by apply Hfs.
  - cbn [snd fs]. by apply Hfs.
Qed.

Lemma main_writes_only_the_store_witness :
  fs (main Sample.one_page Sample.quote_as_is Sample.session_exits_0
        Sample.token_env (Sample.the_repo Sample.commit_A) 5
        (World {[ "/srv/lila/.git/HEAD" := [Corrupt UnpicklingError] ]} [])).2
    !! "/srv/lila/.git/HEAD"
  = (World {[ "/srv/lila/.git/HEAD" := [Corrupt UnpicklingError] ]} []).(fs)
      !! "/srv/lila/.git/HEAD".
Proof.
  apply (main_writes_only_the_store Sample.one_page Sample.quote_as_is
           Sample.session_exits_0 Sample.token_env
           (Sample.the_repo Sample.commit_A) 5
           (World {[ "/srv/lila/.git/HEAD" := [Corrupt UnpicklingError] ]} [])
           "/srv/lila/.git/HEAD").
  vm_compute. discriminate.
Defined.
